(** * atsmanager: state containers and their notification protocol

    A shallow embedding of the four state containers of the library
    ([ComponentStateManager], [ProxyStateManager], [GlobalStateManager],
    [StateMachine]) together with the properties of their change-detection
    and notification protocol.

    Conventions of the embedding.
    - A callback (a listener, an [onEnter]/[onExit] hook) is an opaque
      function object.  The model keeps its identity (a number) and records
      every call, with its argument, in the trace returned by the operation
      that makes the call.  Callbacks do not call back into the container
      that runs them.
    - A JavaScript [Set] is a list without repetition kept in insertion
      order, which is the order [forEach] visits.
    - Every operation is a function from the receiver before the call to
      the receiver after it, paired with the trace of callback calls. *)

From Stdlib Require Import ZArith String Ascii List Lia DecimalString.
From stdpp Require Import base decidable option list strings gmap.

Local Open Scope Z_scope.
Local Open Scope nat_scope.
Local Open Scope string_scope.
Local Open Scope list_scope.

(** ** JavaScript values *)

Module JS.

(** The data fragment of JavaScript values a state can hold: primitives and
    plain objects.  An object is its own properties in insertion order, no
    property name being an array index.  Numbers are the integers (those
    below 10^21 in magnitude, which [JSON.stringify] prints in plain
    decimal) and strings are made of ASCII characters.  Arrays and function
    values are left out. *)
#[local] Set Warnings "-register-all".
Inductive value : Type :=
| Undefined
| Null
| Bool (b : bool)
| Num (n : Z)
| Str (s : string)
| Obj (props : list (string * value)).
#[local] Set Warnings "register-all".

Definition object : Type := list (string * value).

(** [typeof v] *)
Definition typeof (v : value) : string :=
  match v with
  | Undefined => "undefined"
  | Null => "object"
  | Bool _ => "boolean"
  | Num _ => "number"
  | Str _ => "string"
  | Obj _ => "object"
  end.

(** ToBoolean: the falsy values are [undefined], [null], [false], [0] and
    the empty string. *)
Definition truthy (v : value) : bool :=
  match v with
  | Undefined | Null => false
  | Bool b => b
  | Num n => negb (n =? 0)%Z
  | Str s => negb (String.length s =? 0)%nat
  | Obj _ => true
  end.

(** [a || b] *)
Definition or (a b : value) : value := if truthy a then a else b.

(** [obj[prop]]: [undefined] when the property is absent. *)
Fixpoint get (obj : object) (prop : string) : value :=
  match obj with
  | [] => Undefined
  | (k, v) :: rest => if String.eqb k prop then v else get rest prop
  end.

(** [obj[prop] = v]: an existing property keeps its place, a new one goes
    last. *)
Fixpoint set (obj : object) (prop : string) (v : value) : object :=
  match obj with
  | [] => [(prop, v)]
  | (k, w) :: rest =>
      if String.eqb k prop then (k, v) :: rest else (k, w) :: set rest prop v
  end.

Definition dquote : ascii := ascii_of_nat 34.
Definition backslash : ascii := ascii_of_nat 92.

Definition hex_digit (n : nat) : ascii :=
  nth n (list_ascii_of_string "0123456789abcdef") "0"%char.

(** The JSON escape of one character of a string. *)
Definition escape_char (c : ascii) : string :=
  let n := nat_of_ascii c in
  let esc (d : ascii) := String backslash (String d EmptyString) in
  if (n =? 34)%nat then esc dquote
  else if (n =? 92)%nat then esc backslash
  else if (n =? 8)%nat then esc "b"%char
  else if (n =? 12)%nat then esc "f"%char
  else if (n =? 10)%nat then esc "n"%char
  else if (n =? 13)%nat then esc "r"%char
  else if (n =? 9)%nat then esc "t"%char
  else if (n <? 32)%nat then
    String backslash
      (String "u" (String "0" (String "0"
         (String (hex_digit (n / 16)) (String (hex_digit (n mod 16)) EmptyString)))))
  else String c EmptyString.

Fixpoint escape (s : string) : string :=
  match s with
  | EmptyString => EmptyString
  | String c rest => escape_char c +:+ escape rest
  end.

Definition quote (s : string) : string :=
  String dquote (escape s) +:+ String dquote EmptyString.

(** [JSON.stringify v]: [None] stands for the result [undefined].  A property
    whose value serializes to [undefined] is left out of its object. *)
Fixpoint JSON_stringify (v : value) : option string :=
  match v with
  | Undefined => None
  | Null => Some "null"
  | Bool true => Some "true"
  | Bool false => Some "false"
  | Num n => Some (NilZero.string_of_int (Z.to_int n))
  | Str s => Some (quote s)
  | Obj props =>
      let members :=
        (fix members (ps : list (string * value)) : list string :=
           match ps with
           | [] => []
           | (k, w) :: rest =>
               match JSON_stringify w with
               | Some s => (quote k +:+ ":" +:+ s) :: members rest
               | None => members rest
               end
           end) props in
      Some ("{" +:+ String.concat "," members +:+ "}")
  end.

(** [JSON.stringify(a) !== JSON.stringify(b)] *)
Definition stringify_neq (a b : value) : bool :=
  bool_decide (JSON_stringify a ≠ JSON_stringify b).

End JS.

(** ** JavaScript [Set], as the containers use it *)

Module JSSet.

Section JSSet.
Context {A : Type} `{EqDecision A}.

(** [s.add(x)]: no effect when [x] is already a member. *)
Definition add (x : A) (s : list A) : list A :=
  if decide (x ∈ s) then s else s ++ [x].

(** [s.delete(x)] *)
Definition delete (x : A) (s : list A) : list A :=
  filter (λ y, y ≠ x) s.

(** [src.forEach(x => s.add(x))] *)
Definition add_all (src s : list A) : list A :=
  foldl (λ acc x, add x acc) s src.

End JSSet.

End JSSet.

(** ** Types of [index.ts] *)

(** [SetStateAction<T> = T | ((prevState: T) => T)].  The two members of the
    union are told apart at run time by [typeof action === "function"]; [T]
    is a type of data, so the test decides which member an action is. *)
Inductive SetStateAction (T : Type) : Type :=
| Value (v : T)
| Updater (f : T → T).
Arguments Value {T} v.
Arguments Updater {T} f.

(** The expression [this.isFunction(action) ? action(prev) : action] of the
    three [setState] methods. *)
Definition resolve {T : Type} (action : SetStateAction T) (prev : T) : T :=
  match action with
  | Updater f => f prev
  | Value v => v
  end.

(** [Listener = () => void] and [ListenerG<T> = (value: T) => void]: the
    identity of the callback. *)
Definition Listener : Type := nat.
Definition ListenerG (T : Type) : Type := nat.

(** ** [ComponentStateManager<T>] (components/componentState.ts) *)

Module ComponentState.

Section ComponentState.
Variable T : Type.

Record ComponentStateManager : Type := mk {
  currentState : T;
  listeners : list Listener;
}.

(** The trace of a call: the listeners invoked, in order (each is called
    with no argument). *)
Definition trace : Type := list Listener.

Definition new (initialState : T) : ComponentStateManager :=
  {| currentState := initialState; listeners := [] |}.

Definition isFunction (value : SetStateAction T) : bool :=
  match value with
  | Updater _ => true
  | Value _ => false
  end.

Definition getState (m : ComponentStateManager) : T := currentState m.

Definition setState (action : SetStateAction T) (m : ComponentStateManager)
  : ComponentStateManager * trace :=
  let m' :=
    {| currentState := resolve action (currentState m);
       listeners := listeners m |} in
  (m', map (λ listener, listener) (listeners m')).

(** The closure [() => this.listeners.delete(callback)]. *)
Definition unsubscribe (callback : Listener) (m : ComponentStateManager)
  : ComponentStateManager :=
  {| currentState := currentState m;
     listeners := JSSet.delete callback (listeners m) |}.

Definition subscribe (callback : Listener) (m : ComponentStateManager)
  : ComponentStateManager * (ComponentStateManager → ComponentStateManager) :=
  ({| currentState := currentState m;
      listeners := JSSet.add callback (listeners m) |},
   unsubscribe callback).

(** A sequence of [setState] calls, with the concatenated trace. *)
Fixpoint setStates (actions : list (SetStateAction T)) (m : ComponentStateManager)
  : ComponentStateManager * trace :=
  match actions with
  | [] => (m, [])
  | a :: rest =>
      let r1 := setState a m in
      let r2 := setStates rest (fst r1) in
      (fst r2, snd r1 ++ snd r2)
  end.

(** The fold the specification speaks of: a function is applied to the
    accumulated value, a literal replaces it. *)
Definition fold_actions (actions : list (SetStateAction T)) (init : T) : T :=
  foldl (λ acc a, match a with Updater f => f acc | Value v => v end) init actions.

End ComponentState.

Arguments currentState {T} _.
Arguments listeners {T} _.
Arguments new {T} _.
Arguments getState {T} _.
Arguments setState {T} _ _.
Arguments subscribe {T} _ _.
Arguments unsubscribe {T} _ _.
Arguments setStates {T} _ _.
Arguments fold_actions {T} _ _.

End ComponentState.

(** ** Outcomes of fallible calls *)

(** The result of a constructor: the new object, or the message of the
    [Error] it throws. *)
Inductive result (A : Type) : Type :=
| Ok (a : A)
| Throw (message : string).
Arguments Ok {A} a.
Arguments Throw {A} message.

(** How a method call completes: normally, or by throwing an [Error] with
    the given message. *)
Inductive completion : Type :=
| Normal
| Thrown (message : string).

(** ** [ProxyStateManager<T>] (components/proxyState.ts) *)

Module ProxyState.

(** The managed type: the constructor only accepts an object, and [T] is the
    type of that object. *)
Definition T : Type := JS.object.

(** One call [listener(this.state)]: the listener and the state it is
    handed. *)
Definition event : Type := ListenerG T * T.
Definition trace : Type := list event.

Record ProxyStateManager : Type := mk {
  state : T;
  listeners : list (ListenerG T);
  isBatchingUpdates : bool;
  pendingNotifications : list (ListenerG T);
  hasStateChanged : bool;
}.

Definition with_state (s : T) (m : ProxyStateManager) : ProxyStateManager :=
  {| state := s; listeners := listeners m;
     isBatchingUpdates := isBatchingUpdates m;
     pendingNotifications := pendingNotifications m;
     hasStateChanged := hasStateChanged m |}.

Definition with_listeners (ls : list (ListenerG T)) (m : ProxyStateManager)
  : ProxyStateManager :=
  {| state := state m; listeners := ls;
     isBatchingUpdates := isBatchingUpdates m;
     pendingNotifications := pendingNotifications m;
     hasStateChanged := hasStateChanged m |}.

Definition with_isBatchingUpdates (b : bool) (m : ProxyStateManager)
  : ProxyStateManager :=
  {| state := state m; listeners := listeners m;
     isBatchingUpdates := b;
     pendingNotifications := pendingNotifications m;
     hasStateChanged := hasStateChanged m |}.

Definition with_pendingNotifications (p : list (ListenerG T)) (m : ProxyStateManager)
  : ProxyStateManager :=
  {| state := state m; listeners := listeners m;
     isBatchingUpdates := isBatchingUpdates m;
     pendingNotifications := p;
     hasStateChanged := hasStateChanged m |}.

Definition with_hasStateChanged (b : bool) (m : ProxyStateManager)
  : ProxyStateManager :=
  {| state := state m; listeners := listeners m;
     isBatchingUpdates := isBatchingUpdates m;
     pendingNotifications := pendingNotifications m;
     hasStateChanged := b |}.

(** [createProxy(state)]: a proxy reads as its target.  Its handler has one
    trap, [set], which is [handler_set] below; it has no [get] trap, so a
    property read through the proxy yields the target's own (unwrapped)
    value. *)
Definition createProxy (state : T) : T := state.

(** [new ProxyStateManager(initialState)].  The guard
    [typeof initialState !== "object" || initialState === null] lets exactly
    the objects through. *)
Definition new (initialState : JS.value) : result ProxyStateManager :=
  if negb (String.eqb (JS.typeof initialState) "object")
     || match initialState with JS.Null => true | _ => false end
  then Throw "ProxyStateManager can only manage state of type 'object'."
  else
    match initialState with
    | JS.Obj o =>
        Ok {| state := createProxy o; listeners := [];
              isBatchingUpdates := false; pendingNotifications := [];
              hasStateChanged := false |}
    | _ => Throw "ProxyStateManager can only manage state of type 'object'."
    end.

Definition isFunction (value : SetStateAction T) : bool :=
  match value with
  | Updater _ => true
  | Value _ => false
  end.

Definition getState (m : ProxyStateManager) : T := state m.

(** [this.listeners.forEach((listener) => listener(this.state))] *)
Definition notifyListeners (m : ProxyStateManager) : trace :=
  map (λ listener, (listener, state m)) (listeners m).

(** [this.listeners.forEach((listener) => this.pendingNotifications.add(listener))] *)
Definition queueListeners (m : ProxyStateManager) : ProxyStateManager :=
  with_pendingNotifications
    (JSSet.add_all (listeners m) (pendingNotifications m)) m.

(** The [set] trap of the handler, run by an assignment [proxy[prop] = value]
    on the current state. *)
Definition handler_set (prop : string) (value : JS.value) (m : ProxyStateManager)
  : ProxyStateManager * trace :=
  let oldValue := JS.get (state m) prop in
  let m := with_state (JS.set (state m) prop value) m in
  if JS.stringify_neq oldValue value then
    let m := with_hasStateChanged true m in
    if negb (isBatchingUpdates m) then (m, notifyListeners m)
    else (queueListeners m, [])
  else (m, []).

Definition setState (action : SetStateAction T) (m : ProxyStateManager)
  : ProxyStateManager * trace :=
  let newState := resolve action (state m) in
  if JS.stringify_neq (JS.Obj (state m)) (JS.Obj newState) then
    let m := with_state (createProxy newState) m in
    if negb (isBatchingUpdates m) then (m, notifyListeners m)
    else (queueListeners m, [])
  else (m, []).

Definition unsubscribe (listener : ListenerG T) (m : ProxyStateManager)
  : ProxyStateManager :=
  with_listeners (JSSet.delete listener (listeners m)) m.

(** Returns the closure [() => this.unsubscribe(listener)]. *)
Definition subscribe (listener : ListenerG T) (m : ProxyStateManager)
  : ProxyStateManager * (ProxyStateManager → ProxyStateManager) :=
  (with_listeners (JSSet.add listener (listeners m)) m, unsubscribe listener).

Definition beginBatchUpdates (m : ProxyStateManager) : ProxyStateManager :=
  with_isBatchingUpdates true m.

Definition endBatchUpdates (m : ProxyStateManager) : ProxyStateManager * trace :=
  let '(m, t) :=
    if (0 <? length (pendingNotifications m))%nat then
      (with_pendingNotifications [] m,
       map (λ listener, (listener, state m)) (pendingNotifications m))
    else (m, []) in
  (with_isBatchingUpdates false m, t).

(** An assignment [o.p1. ... .pn.prop = value] on a plain (unwrapped)
    object [o]: the write lands in the object reached by the path.  [None]
    when the path does not lead through objects (the engine throws a
    [TypeError]). *)
Fixpoint raw_assign (path : list string) (prop : string) (value : JS.value)
  (o : JS.object) : option JS.object :=
  match path with
  | [] => Some (JS.set o prop value)
  | p :: rest =>
      match JS.get o p with
      | JS.Obj inner =>
          match raw_assign rest prop value inner with
          | Some inner' => Some (JS.set o p (JS.Obj inner'))
          | None => None
          end
      | _ => None
      end
  end.

(** The client statement [manager.getState().p1. ... .pn.prop = value].
    With an empty path the write is on the proxy and runs its [set] trap.
    Otherwise [getState().p1] is read through the proxy, which hands out the
    nested object itself, and the write is an ordinary assignment on it. *)
Definition assign (path : list string) (prop : string) (value : JS.value)
  (m : ProxyStateManager) : ProxyStateManager * trace * completion :=
  match path with
  | [] => (handler_set prop value m, Normal)
  | _ :: _ =>
      match raw_assign path prop value (state m) with
      | Some o => (with_state o m, [], Normal)
      | None => (m, [], Thrown "TypeError")
      end
  end.

(** The calls a client can make on a manager. *)
Inductive call : Type :=
| SetState (action : SetStateAction T)
| Assign (path : list string) (prop : string) (value : JS.value)
| Subscribe (listener : ListenerG T)
| Unsubscribe (listener : ListenerG T)
| BeginBatchUpdates
| EndBatchUpdates.

Definition step (c : call) (m : ProxyStateManager) : ProxyStateManager * trace :=
  match c with
  | SetState action => setState action m
  | Assign path prop value => fst (assign path prop value m)
  | Subscribe listener => (fst (subscribe listener m), [])
  | Unsubscribe listener => (snd (subscribe listener m) m, [])
  | BeginBatchUpdates => (beginBatchUpdates m, [])
  | EndBatchUpdates => endBatchUpdates m
  end.

(** A sequence of calls, with the concatenated trace. *)
Fixpoint run (cs : list call) (m : ProxyStateManager) : ProxyStateManager * trace :=
  match cs with
  | [] => (m, [])
  | c :: rest =>
      let r1 := step c m in
      let r2 := run rest (fst r1) in
      (fst r2, snd r1 ++ snd r2)
  end.

(** A call that changes the state in the sense of the manager: a [setState]
    whose new state serializes differently, or a top-level assignment whose
    value serializes differently from the property's old value. *)
Definition changes (c : call) (m : ProxyStateManager) : bool :=
  match c with
  | SetState action =>
      JS.stringify_neq (JS.Obj (state m)) (JS.Obj (resolve action (state m)))
  | Assign [] prop value => JS.stringify_neq (JS.get (state m) prop) value
  | _ => false
  end.

(** The calls a client can make between [beginBatchUpdates()] and
    [endBatchUpdates()]. *)
Definition within_batch (c : call) : bool :=
  match c with
  | BeginBatchUpdates | EndBatchUpdates => false
  | _ => true
  end.

(** The calls that mutate state ([setState] and assignments). *)
Definition is_mutation (c : call) : bool :=
  match c with
  | SetState _ | Assign _ _ _ => true
  | _ => false
  end.

End ProxyState.

(** ** [GlobalStateManager<T>] (components/globalState.ts) *)

Module GlobalState.

(** The state is any value: [getInstance] and [resetInstance] test it for
    truthiness. *)
Definition T : Type := JS.value.

Definition event : Type := ListenerG T * T.
Definition trace : Type := list event.

Record GlobalStateManager : Type := mk {
  currentState : T;
  listeners : list (ListenerG T);
}.

(** Instances are objects: a reference is the position of the instance in
    the store of the instances created so far. *)
Definition ref : Type := nat.

(** The class as the process sees it: the static field [instance]
    ([None] while it is [undefined]) and the store of instances. *)
Record Process : Type := mkProcess {
  instance : option ref;
  heap : list GlobalStateManager;
}.

Definition start : Process := {| instance := None; heap := [] |}.

(** The private constructor. *)
Definition new (initialState : T) : GlobalStateManager :=
  {| currentState := initialState; listeners := [] |}.

Definition isFunction (value : SetStateAction T) : bool :=
  match value with
  | Updater _ => true
  | Value _ => false
  end.

(** [GlobalStateManager.getInstance(initialState?)]; a missing argument is
    [undefined]. *)
Definition getInstance (initialState : JS.value) (w : Process) : ref * Process :=
  match instance w with
  | None =>
      let r := length (heap w) in
      (r, {| instance := Some r;
             heap := heap w ++ [new (JS.or initialState (JS.Obj []))] |})
  | Some r => (r, w)
  end.

(** [GlobalStateManager.resetInstance(initialState)] *)
Definition resetInstance (initialState : JS.value) (w : Process) : Process :=
  {| instance := Some (length (heap w));
     heap := heap w ++ [new (JS.or initialState (JS.Obj []))] |}.

(** The instance methods take the receiver [this]; a method of a reference
    that denotes no instance is not a call the program can make, and leaves
    the process as it is. *)
Definition getState (this : ref) (w : Process) : option T :=
  currentState <$> heap w !! this.

Definition setState (action : SetStateAction T) (this : ref) (w : Process)
  : Process * trace :=
  match heap w !! this with
  | Some m =>
      let m' :=
        {| currentState := resolve action (currentState m);
           listeners := listeners m |} in
      ({| instance := instance w; heap := <[this := m']> (heap w) |},
       map (λ listener, (listener, currentState m')) (listeners m'))
  | None => (w, [])
  end.

(** The closure [() => this.listeners.delete(callback)]. *)
Definition unsubscribe (callback : ListenerG T) (this : ref) (w : Process) : Process :=
  match heap w !! this with
  | Some m =>
      {| instance := instance w;
         heap := <[this := {| currentState := currentState m;
                              listeners := JSSet.delete callback (listeners m) |}]>
                   (heap w) |}
  | None => w
  end.

Definition subscribe (callback : ListenerG T) (this : ref) (w : Process)
  : Process * (Process → Process) :=
  match heap w !! this with
  | Some m =>
      ({| instance := instance w;
          heap := <[this := {| currentState := currentState m;
                               listeners := JSSet.add callback (listeners m) |}]>
                    (heap w) |},
       unsubscribe callback this)
  | None => (w, unsubscribe callback this)
  end.

(** The listeners registered with an instance. *)
Definition listeners_of (this : ref) (w : Process) : list (ListenerG T) :=
  match heap w !! this with
  | Some m => listeners m
  | None => []
  end.

(** The calls a client can make on an instance it holds. *)
Inductive call : Type :=
| SetState (action : SetStateAction T)
| Subscribe (callback : ListenerG T)
| Unsubscribe (callback : ListenerG T).

Definition step (c : call) (this : ref) (w : Process) : Process * trace :=
  match c with
  | SetState action => setState action this w
  | Subscribe callback => (fst (subscribe callback this w), [])
  | Unsubscribe callback => (snd (subscribe callback this w) w, [])
  end.

(** A sequence of calls on one instance, with the concatenated trace. *)
Fixpoint run (cs : list call) (this : ref) (w : Process) : Process * trace :=
  match cs with
  | [] => (w, [])
  | c :: rest =>
      let r1 := step c this w in
      let r2 := run rest this (fst r1) in
      (fst r2, snd r1 ++ snd r2)
  end.

End GlobalState.

(** ** [StateMachine] (components/stateMachine.ts) *)

Module StateMachine.

(** A state object is known by its reference; [includes] compares
    references. *)
Definition ref : Type := nat.

(** An [onEnter]/[onExit] hook: the identity of the function. *)
Definition callback : Type := nat.

(** [machineState] of index.ts: the fields of a state object. *)
Record machineState : Type := mkState {
  name : string;
  onEnter : option callback;
  onExit : option callback;
}.

Section StateMachine.

(** The object each reference denotes.  The machine never writes to a state
    object. *)
Variable heap : ref → machineState.

Record StateMachine : Type := mk {
  states : list ref;
  currentState : ref;
}.

(** One call of a hook: the function called, and the machine's
    [currentState] at the time of the call. *)
Definition event : Type := callback * ref.
Definition trace : Type := list event.

(** [hook?.()] *)
Definition call_optional (hook : option callback) (sm : StateMachine) : trace :=
  match hook with
  | Some f => [(f, currentState sm)]
  | None => []
  end.

(** [arr.includes(x)] on an array of objects. *)
Definition includes (arr : list ref) (x : ref) : bool :=
  existsb (Nat.eqb x) arr.

(** [new StateMachine(states)] *)
Definition new (states : list ref) : result (StateMachine * trace) :=
  if (length states =? 0)%nat then
    Throw "StateMachine must be initialized with at least one machine state."
  else
    match states !! 0%nat with
    | Some s0 =>
        let sm := {| states := states; currentState := s0 |} in
        Ok (sm, call_optional (onEnter (heap (currentState sm))) sm)
    | None => Throw "TypeError"
    end.

Definition transitionTo (newState : ref) (sm : StateMachine)
  : StateMachine * trace * completion :=
  if includes (states sm) newState then
    let t1 := call_optional (onExit (heap (currentState sm))) sm in
    let sm := {| states := states sm; currentState := newState |} in
    let t2 := call_optional (onEnter (heap (currentState sm))) sm in
    (sm, t1 ++ t2, Normal)
  else
    (sm, [], Thrown ("Invalid state: " +:+ name (heap newState))).

Definition getCurrentState (sm : StateMachine) : ref := currentState sm.

(** A sequence of [transitionTo] calls whose errors the caller catches. *)
Fixpoint transitions (targets : list ref) (sm : StateMachine) : StateMachine * trace :=
  match targets with
  | [] => (sm, [])
  | r :: rest =>
      let r1 := fst (transitionTo r sm) in
      let r2 := transitions rest (fst r1) in
      (fst r2, snd r1 ++ snd r2)
  end.

End StateMachine.

Arguments states _ : clear implicits.
Arguments currentState _ : clear implicits.

End StateMachine.

(** ** [useState] (index.ts) *)

Module UseState.

Section UseState.
Variable T : Type.

(** The two variables the closures of one [useState] call share. *)
Record closure : Type := mk {
  currentState : T;
  listeners : list Listener;
}.

(** The listeners called, in order (each with no argument). *)
Definition trace : Type := list Listener.

Definition getState (e : closure) : T := currentState e.

Definition setState (newValue : SetStateAction T) (e : closure) : closure * trace :=
  let e' :=
    {| currentState :=
         match newValue with
         | Updater f => f (currentState e)
         | Value v => v
         end;
       listeners := listeners e |} in
  (e', map (λ listener, listener) (listeners e')).

(** The closure [() => { listeners.delete(callback); }]. *)
Definition unsubscribe (callback : Listener) (e : closure) : closure :=
  {| currentState := currentState e;
     listeners := JSSet.delete callback (listeners e) |}.

Definition subscribe (callback : Listener) (e : closure)
  : closure * (closure → closure) :=
  ({| currentState := currentState e;
      listeners := JSSet.add callback (listeners e) |},
   unsubscribe callback).

(** [useState(initialState)]: the fresh variables and the triple
    [[getState, setState, subscribe]]. *)
Definition useState (initialState : T)
  : closure
    * ((closure → T)
       * (SetStateAction T → closure → closure * trace)
       * (Listener → closure → closure * (closure → closure))) :=
  ({| currentState := initialState; listeners := [] |},
   (getState, setState, subscribe)).

(** The calls a client can make with the triple. *)
Inductive call : Type :=
| SetState (newValue : SetStateAction T)
| Subscribe (callback : Listener)
| Unsubscribe (callback : Listener).

Definition step (c : call) (e : closure) : closure * trace :=
  match c with
  | SetState newValue => setState newValue e
  | Subscribe callback => (fst (subscribe callback e), [])
  | Unsubscribe callback => (snd (subscribe callback e) e, [])
  end.

Fixpoint run (cs : list call) (e : closure) : closure * trace :=
  match cs with
  | [] => (e, [])
  | c :: rest =>
      let r1 := step c e in
      let r2 := run rest (fst r1) in
      (fst r2, snd r1 ++ snd r2)
  end.

(** The number of [setState] calls of [cs] made while [callback] is
    subscribed, [subscribed] telling whether it is at the start. *)
Fixpoint sets_while_subscribed (callback : Listener) (cs : list call)
  (subscribed : bool) : nat :=
  match cs with
  | [] => 0
  | SetState _ :: rest =>
      (if subscribed then 1 else 0) + sets_while_subscribed callback rest subscribed
  | Subscribe l :: rest =>
      sets_while_subscribed callback rest
        (if decide (l = callback) then true else subscribed)
  | Unsubscribe l :: rest =>
      sets_while_subscribed callback rest
        (if decide (l = callback) then false else subscribed)
  end.

(** The value the actions among [cs] fold to, from [init]. *)
Fixpoint fold_sets (cs : list call) (init : T) : T :=
  match cs with
  | [] => init
  | SetState (Updater f) :: rest => fold_sets rest (f init)
  | SetState (Value v) :: rest => fold_sets rest v
  | _ :: rest => fold_sets rest init
  end.

End UseState.

Arguments currentState {T} _.
Arguments listeners {T} _.
Arguments getState {T} _.
Arguments setState {T} _ _.
Arguments subscribe {T} _ _.
Arguments unsubscribe {T} _ _.
Arguments useState {T} _.
Arguments SetState {T} _.
Arguments Subscribe {T} _.
Arguments Unsubscribe {T} _.
Arguments step {T} _ _.
Arguments run {T} _ _.
Arguments sets_while_subscribed {T} _ _ _.
Arguments fold_sets {T} _ _.

End UseState.

(** ** [ATSManager] (index.ts) *)

Module ATSManager.

(** [StateManagerTypes]: the keys are strings at run time. *)
Abbreviation StateManagerTypes := string.

(** A value of the map: the state manager created for a key, as its
    constructor returned it (for the global state, the reference
    [getInstance] returned).  The registry calls no method of a manager it
    holds. *)
Inductive manager : Type :=
| OfStateMachine (sm : StateMachine.StateMachine)
| OfProxyState (m : ProxyState.ProxyStateManager)
| OfGlobalState (r : GlobalState.ref)
| OfComponentState (m : ComponentState.ComponentStateManager JS.value).

Record ATSManager : Type := mk {
  stateManagers : gmap string manager;
}.

(** [new ATSManager()] *)
Definition new : ATSManager := {| stateManagers := ∅ |}.

(** [this.stateManagers.has(key)] *)
Definition has (key : StateManagerTypes) (this : ATSManager) : bool :=
  match stateManagers this !! key with
  | Some _ => true
  | None => false
  end.

(** [this.stateManagers.set(key, value)] *)
Definition set (key : StateManagerTypes) (value : manager) (this : ATSManager)
  : ATSManager :=
  {| stateManagers := <[key := value]> (stateManagers this) |}.

Section WithHeap.
Variable heap : StateMachine.ref → StateMachine.machineState.

(** The trace holds the hook the [StateMachine] constructor calls. *)
Definition initializeStateMachine (states : list StateMachine.ref) (this : ATSManager)
  : ATSManager * StateMachine.trace * completion :=
  if has "stateMachine" this then
    (this, [], Thrown "StateMachine has already been initialized.")
  else if (length states =? 0)%nat then
    (this, [], Thrown "StateMachine must be initialized with at least one state.")
  else
    match StateMachine.new heap states with
    | Ok (sm, t) => (set "stateMachine" (OfStateMachine sm) this, t, Normal)
    | Throw message => (this, [], Thrown message)
    end.

Definition addStateMachine (states : list StateMachine.ref) (this : ATSManager)
  : ATSManager * StateMachine.trace * completion :=
  initializeStateMachine states this.

End WithHeap.

Definition initializeProxyState (initialState : JS.value) (this : ATSManager)
  : ATSManager * completion :=
  if has "proxy" this then
    (this, Thrown "ProxyStateManager has already been initialized.")
  else if negb (String.eqb (JS.typeof initialState) "object")
          || match initialState with JS.Null => true | _ => false end
  then (this, Thrown "ProxyStateManager can only manage state of type 'object'.")
  else
    match ProxyState.new initialState with
    | Ok m => (set "proxy" (OfProxyState m) this, Normal)
    | Throw message => (this, Thrown message)
    end.

(** A missing [initialState] is [undefined]. *)
Definition initializeGlobalState (initialState : JS.value) (this : ATSManager)
  (w : GlobalState.Process) : ATSManager * GlobalState.Process * completion :=
  if has "global" this then
    (this, w, Thrown "GlobalStateManager has already been initialized.")
  else
    let '(r, w') := GlobalState.getInstance initialState w in
    (set "global" (OfGlobalState r) this, w', Normal).

Definition initializeComponentState (initialState : JS.value) (this : ATSManager)
  : ATSManager * completion :=
  if has "component" this then
    (this, Thrown "ComponentStateManager has already been initialized.")
  else
    (set "component" (OfComponentState (ComponentState.new initialState)) this,
     Normal).

(** The public methods return [this], here the registry after the call. *)
Definition addProxyState (initialState : JS.value) (this : ATSManager)
  : ATSManager * completion :=
  initializeProxyState initialState this.

Definition addGlobalState (initialState : JS.value) (this : ATSManager)
  (w : GlobalState.Process) : ATSManager * GlobalState.Process * completion :=
  initializeGlobalState initialState this w.

Definition addComponentState (initialState : JS.value) (this : ATSManager)
  : ATSManager * completion :=
  initializeComponentState initialState this.

(** [getStateManager(managerType)]: the value of [Map.get], [None] standing
    for [undefined], or the error thrown. *)
Definition getStateManager (managerType : StateManagerTypes) (this : ATSManager)
  : result (option manager) :=
  if negb (has managerType this) then
    Throw ("State manager of type '" +:+ managerType +:+ "' does not exist.")
  else Ok (stateManagers this !! managerType).

End ATSManager.

(** ** Observations on traces and well-formed managers *)

(** The number of calls of [listener] in a trace of [listener(state)]
    events. *)
Definition calls {T : Type} (listener : nat) (t : list (nat * T)) : nat :=
  length (filter (λ e, e.1 = listener) t).

(** The listeners a trace calls, in order. *)
Definition called {T : Type} (t : list (nat * T)) : list nat := map fst t.

(** The two [Set] fields of a [ProxyStateManager] hold no listener twice. *)
Definition proxy_wf (m : ProxyState.ProxyStateManager) : Prop :=
  NoDup (ProxyState.listeners m) ∧ NoDup (ProxyState.pendingNotifications m).

(** Outside a batch nothing is pending. *)
Definition proxy_idle (m : ProxyState.ProxyStateManager) : Prop :=
  ProxyState.isBatchingUpdates m = false → ProxyState.pendingNotifications m = [].

(** [listener] is registered at the moment of a state-changing call of the
    sequence [cs] run from [m]. *)
Definition registered_at_change (listener : nat) (cs : list ProxyState.call)
  (m : ProxyState.ProxyStateManager) : Prop :=
  ∃ pre c post,
    cs = pre ++ c :: post
    ∧ ProxyState.changes c (fst (ProxyState.run pre m)) = true
    ∧ listener ∈ ProxyState.listeners (fst (ProxyState.run pre m)).

(** The number of [setState] calls, among those made in turn with
    [actions] from the state [s], that change the serialized state. *)
Fixpoint changing_sets (actions : list (SetStateAction ProxyState.T))
  (s : ProxyState.T) : nat :=
  match actions with
  | [] => 0
  | a :: rest =>
      if JS.stringify_neq (JS.Obj s) (JS.Obj (resolve a s))
      then S (changing_sets rest (resolve a s))
      else changing_sets rest s
  end.

(** The number of occurrences of [listener] in a trace of calls without
    argument. *)
Definition occurrences (listener : Listener) (t : list Listener) : nat :=
  length (filter (λ x, x = listener) t).

(** What a program does with the [GlobalStateManager] class: the two
    static methods, and calls on an instance it holds a reference to. *)
Inductive process_call : Type :=
| GetInstance (initialState : JS.value)
| ResetInstance (initialState : JS.value)
| OnInstance (this : GlobalState.ref) (c : GlobalState.call).

Definition process_step (p : process_call) (w : GlobalState.Process)
  : GlobalState.Process :=
  match p with
  | GetInstance initialState => snd (GlobalState.getInstance initialState w)
  | ResetInstance initialState => GlobalState.resetInstance initialState w
  | OnInstance this c => fst (GlobalState.step c this w)
  end.

Definition process_run (ps : list process_call) (w : GlobalState.Process)
  : GlobalState.Process :=
  foldl (λ w p, process_step p w) w ps.

(** The static field, when set, denotes an instance of the store. *)
Definition global_wf (w : GlobalState.Process) : Prop :=
  ∀ r, GlobalState.instance w = Some r → r < length (GlobalState.heap w).

(** The registrations a program can ask of an [ATSManager]. *)
Inductive registry_call : Type :=
| AddStateMachine (states : list StateMachine.ref)
| AddProxyState (initialState : JS.value)
| AddGlobalState (initialState : JS.value)
| AddComponentState (initialState : JS.value).

(** The key a registration writes. *)
Definition registry_key (c : registry_call) : ATSManager.StateManagerTypes :=
  match c with
  | AddStateMachine _ => "stateMachine"
  | AddProxyState _ => "proxy"
  | AddGlobalState _ => "global"
  | AddComponentState _ => "component"
  end.

(** One registration: the registry and the process after it, the hooks it
    ran, and how it completed. *)
Definition registry_step (heap : StateMachine.ref → StateMachine.machineState)
  (c : registry_call) (this : ATSManager.ATSManager) (w : GlobalState.Process)
  : ATSManager.ATSManager * GlobalState.Process * StateMachine.trace * completion :=
  match c with
  | AddStateMachine states =>
      let '(this', t, k) := ATSManager.addStateMachine heap states this in
      (this', w, t, k)
  | AddProxyState initialState =>
      let '(this', k) := ATSManager.addProxyState initialState this in
      (this', w, [], k)
  | AddGlobalState initialState =>
      let '(this', w', k) := ATSManager.addGlobalState initialState this w in
      (this', w', [], k)
  | AddComponentState initialState =>
      let '(this', k) := ATSManager.addComponentState initialState this in
      (this', w, [], k)
  end.

(** A sequence of registrations whose errors the caller catches. *)
Fixpoint registry_run (heap : StateMachine.ref → StateMachine.machineState)
  (cs : list registry_call) (this : ATSManager.ATSManager) (w : GlobalState.Process)
  : ATSManager.ATSManager * GlobalState.Process :=
  match cs with
  | [] => (this, w)
  | c :: rest =>
      let r := registry_step heap c this w in
      registry_run heap rest (fst (fst (fst r))) (snd (fst (fst r)))
  end.

(** ** Concrete objects used in the examples *)

Module Examples.

(** Three state objects: [A] and [B] with both hooks, and a second object
    that is also named [B] and has no hook; every other reference denotes
    an object named [C]. *)
Definition machine_heap (r : StateMachine.ref) : StateMachine.machineState :=
  match r with
  | 0 => {| StateMachine.name := "A"; StateMachine.onEnter := Some 10;
            StateMachine.onExit := Some 11 |}
  | 1 => {| StateMachine.name := "B"; StateMachine.onEnter := Some 20;
            StateMachine.onExit := Some 21 |}
  | 2 => {| StateMachine.name := "B"; StateMachine.onEnter := None;
            StateMachine.onExit := None |}
  | _ => {| StateMachine.name := "C"; StateMachine.onEnter := None;
            StateMachine.onExit := None |}
  end.

(** The machine [new StateMachine([A, B])] right after construction. *)
Definition machine_AB : StateMachine.StateMachine :=
  {| StateMachine.states := [0; 1]; StateMachine.currentState := 0 |}.

(** The state [{count: n}] of the test suite. *)
Definition count (n : Z) : JS.object := [("count", JS.Num n)].

(** A manager holding [{count: 0}] with the listeners [1] and [2]
    subscribed, outside a batch. *)
Definition proxy_count0 : ProxyState.ProxyStateManager :=
  {| ProxyState.state := count 0;
     ProxyState.listeners := [1; 2];
     ProxyState.isBatchingUpdates := false;
     ProxyState.pendingNotifications := [];
     ProxyState.hasStateChanged := false |}.

(** The state [{user: {name: s}}], with an object nested in it. *)
Definition user (s : string) : JS.object :=
  [("user", JS.Obj [("name", JS.Str s)])].

(** A manager holding [{user: {name: "ann"}}] with listener [1]
    subscribed, outside a batch. *)
Definition proxy_user : ProxyState.ProxyStateManager :=
  {| ProxyState.state := user "ann";
     ProxyState.listeners := [1];
     ProxyState.isBatchingUpdates := false;
     ProxyState.pendingNotifications := [];
     ProxyState.hasStateChanged := false |}.

(** The updater [s => ({count: s.count + 1})], on states whose [count] is a
    number. *)
Definition increment (s : JS.object) : JS.object :=
  match JS.get s "count" with
  | JS.Num n => count (n + 1)
  | _ => s
  end.

(** Calls made inside a batch: one change of state, then listener [1]
    leaves, listener [3] joins, and a property is assigned the value it
    already has. *)
Definition batch_calls : list ProxyState.call :=
  [ProxyState.SetState (Value (count 1));
   ProxyState.Unsubscribe 1;
   ProxyState.Subscribe 3;
   ProxyState.Assign [] "count" (JS.Num 1)].

(** A process whose singleton holds [{theme: "light"}] and has listener
    [7] subscribed. *)
Definition global_process : GlobalState.Process :=
  {| GlobalState.instance := Some 0;
     GlobalState.heap :=
       [{| GlobalState.currentState := JS.Obj [("theme", JS.Str "light")];
           GlobalState.listeners := [7] |}] |}.

(** A plain container holding [0] with listeners [1] and [2]. *)
Definition component_two : ComponentState.ComponentStateManager Z :=
  {| ComponentState.currentState := 0%Z; ComponentState.listeners := [1; 2] |}.

End Examples.

(** * Properties *)

Local Open Scope nat_scope.

(** ** [Set] operations *)

Section JSSetFacts.
Context {A : Type} `{EqDecision A}.
Implicit Types (x y : A) (s src : list A).

Lemma JSSet_elem_of_add x y s : y ∈ JSSet.add x s ↔ y = x ∨ y ∈ s.
Proof.
  unfold JSSet.add. case_decide as Hin.
  - split; [tauto | intros [Hy | Hy]; [by subst | done]].
  - rewrite elem_of_app, list_elem_of_singleton. tauto.
Qed.

Lemma JSSet_NoDup_add x s : NoDup s → NoDup (JSSet.add x s).
Proof.
  intros Hnd. unfold JSSet.add. case_decide as Hin; [done |].
  apply NoDup_app. repeat split; [done | | apply NoDup_singleton].
  intros z Hz Hz'. apply list_elem_of_singleton in Hz'. by subst.
Qed.

Lemma JSSet_elem_of_delete x y s : y ∈ JSSet.delete x s ↔ y ≠ x ∧ y ∈ s.
Proof. unfold JSSet.delete. by rewrite list_elem_of_filter. Qed.

Lemma JSSet_not_elem_of_delete x s : x ∉ JSSet.delete x s.
Proof. rewrite JSSet_elem_of_delete. tauto. Qed.

Lemma JSSet_NoDup_delete x s : NoDup s → NoDup (JSSet.delete x s).
Proof. apply NoDup_filter. Qed.

Lemma JSSet_elem_of_add_all src s y :
  y ∈ JSSet.add_all src s ↔ y ∈ s ∨ y ∈ src.
Proof.
  unfold JSSet.add_all. revert s.
  induction src as [| x src IH]; intros s; simpl.
  - rewrite elem_of_nil. tauto.
  - rewrite IH, JSSet_elem_of_add, elem_of_cons. tauto.
Qed.

Lemma JSSet_NoDup_add_all src s : NoDup s → NoDup (JSSet.add_all src s).
Proof.
  unfold JSSet.add_all. revert s.
  induction src as [| x src IH]; intros s Hnd; simpl; [done |].
  by apply IH, JSSet_NoDup_add.
Qed.

End JSSetFacts.

(** ** Counting calls in a trace *)

Section TraceFacts.
Context {T : Type}.
Implicit Types (t : list (nat * T)) (ls : list nat).

Lemma calls_notify_not_elem l ls (v : T) :
  l ∉ ls → calls l (map (λ x, (x, v)) ls) = 0.
Proof.
  unfold calls. induction ls as [| x ls IH]; intros Hl; simpl; [done |].
  rewrite filter_cons. simpl. case_decide as Hx.
  - subst. exfalso. apply Hl. by left.
  - apply IH. intros ?. apply Hl. by right.
Qed.

(** Notifying a duplicate-free set calls each member once. *)
Lemma calls_notify_elem l ls (v : T) :
  NoDup ls → l ∈ ls → calls l (map (λ x, (x, v)) ls) = 1.
Proof.
  unfold calls. induction 1 as [| x ls Hx Hnd IH]; intros Hl.
  - by apply elem_of_nil in Hl.
  - simpl. rewrite filter_cons. simpl. case_decide as Hxl.
    + subst. simpl. f_equal. by apply (calls_notify_not_elem l ls v).
    + apply IH. apply elem_of_cons in Hl as [-> | ?]; done.
Qed.

Lemma called_notify ls (v : T) : called (map (λ x, (x, v)) ls) = ls.
Proof.
  unfold called. induction ls as [| x ls IH]; simpl; [done | by rewrite IH].
Qed.

Lemma elem_of_notify e ls (v : T) :
  e ∈ map (λ x, (x, v)) ls ↔ e.2 = v ∧ e.1 ∈ ls.
Proof.
  induction ls as [| x ls IH]; simpl.
  - rewrite !elem_of_nil. tauto.
  - rewrite !elem_of_cons, IH. destruct e as [a b]; simpl.
    split; [intros [[= -> ->] | [-> ?]]; auto | intros [-> [-> | ?]]; auto].
Qed.

End TraceFacts.

(** ** The plain container *)

Section ComponentStateFacts.
Context {T : Type}.
Implicit Types (m : ComponentState.ComponentStateManager T)
  (actions : list (SetStateAction T)).

Lemma ComponentState_setState_trace action m :
  snd (ComponentState.setState action m) = ComponentState.listeners m.
Proof. simpl. apply map_id. Qed.

Lemma ComponentState_setStates_cons a actions m :
  ComponentState.setStates (a :: actions) m
  = (fst (ComponentState.setStates actions (fst (ComponentState.setState a m))),
     snd (ComponentState.setState a m)
       ++ snd (ComponentState.setStates actions (fst (ComponentState.setState a m)))).
Proof. reflexivity. Qed.

Lemma ComponentState_setStates_listeners actions m :
  ComponentState.listeners (fst (ComponentState.setStates actions m))
  = ComponentState.listeners m.
Proof.
  revert m. induction actions as [| a actions IH]; intros m; [done |].
  rewrite ComponentState_setStates_cons. cbn [fst]. by rewrite IH.
Qed.

(** Only registered listeners are ever called. *)
Lemma ComponentState_setStates_trace actions m l :
  l ∈ snd (ComponentState.setStates actions m) → l ∈ ComponentState.listeners m.
Proof.
  revert m. induction actions as [| a actions IH]; intros m.
  - simpl. by rewrite elem_of_nil.
  - rewrite ComponentState_setStates_cons. cbn [snd].
    rewrite elem_of_app, ComponentState_setState_trace.
    intros [? | Hl]; [done |]. by apply IH in Hl.
Qed.

Lemma ComponentState_subscribe_unsubscribe callback m :
  callback ∉ ComponentState.listeners
    (snd (ComponentState.subscribe callback m)
       (fst (ComponentState.subscribe callback m))).
Proof. simpl. apply JSSet_not_elem_of_delete. Qed.

End ComponentStateFacts.

(** C8.  Plain container: after any sequence of [setState] calls, [getState]
    returns the fold of the actions over the value the container started
    with, where a function is applied to the accumulated value and a literal
    replaces it; in particular for a container just constructed with an
    initial value. *)
Theorem ComponentState_getState_is_fold :
  ∀ (T : Type) (actions : list (SetStateAction T)),
    (∀ m : ComponentState.ComponentStateManager T,
        ComponentState.getState (fst (ComponentState.setStates actions m))
        = ComponentState.fold_actions actions (ComponentState.getState m))
    ∧ (∀ initialState : T,
        ComponentState.getState
          (fst (ComponentState.setStates actions (ComponentState.new initialState)))
        = ComponentState.fold_actions actions initialState).
Proof.
  intros T actions.
  assert (∀ m : ComponentState.ComponentStateManager T,
             ComponentState.getState (fst (ComponentState.setStates actions m))
             = ComponentState.fold_actions actions (ComponentState.getState m)) as Hgen.
  { induction actions as [| a actions IH]; intros m; [done |].
    rewrite ComponentState_setStates_cons. cbn [fst]. rewrite IH.
    unfold ComponentState.fold_actions. simpl. by destruct a. }
  split; [exact Hgen | intros initialState; apply Hgen].
Qed.

(** The README's usage run: [setState(1)] then
    [setState(s => s + 1)] on a container holding [0]. *)
Example ComponentState_readme_run :
  ComponentState.getState
    (fst (ComponentState.setStates [Value 1%Z; Updater (λ s, s + 1)%Z]
            (ComponentState.new 0%Z))) = 2%Z.
Proof. reflexivity. Qed.

(** ** The finite-state holder *)

Section StateMachineFacts.
Variable heap : StateMachine.ref → StateMachine.machineState.
Implicit Types (sm : StateMachine.StateMachine) (target : StateMachine.ref).

Lemma StateMachine_includes_spec (arr : list StateMachine.ref) x :
  StateMachine.includes arr x = true ↔ x ∈ arr.
Proof.
  unfold StateMachine.includes. rewrite existsb_exists. split.
  - intros (y & Hy & Heq). apply Nat.eqb_eq in Heq. subst.
    by apply list_elem_of_In.
  - intros Hx. exists x. split; [by apply list_elem_of_In | apply Nat.eqb_refl].
Qed.

Lemma StateMachine_includes_false (arr : list StateMachine.ref) x :
  StateMachine.includes arr x = false ↔ x ∉ arr.
Proof.
  rewrite <- StateMachine_includes_spec. destruct (StateMachine.includes arr x); split; congruence.
Qed.

Lemma StateMachine_transitionTo_states target sm :
  StateMachine.states (fst (fst (StateMachine.transitionTo heap target sm)))
  = StateMachine.states sm.
Proof.
  unfold StateMachine.transitionTo.
  by destruct (StateMachine.includes (StateMachine.states sm) target).
Qed.

Lemma StateMachine_transitionTo_member target sm :
  StateMachine.currentState sm ∈ StateMachine.states sm →
  StateMachine.currentState (fst (fst (StateMachine.transitionTo heap target sm)))
  ∈ StateMachine.states sm.
Proof.
  intros Hcur. unfold StateMachine.transitionTo.
  destruct (StateMachine.includes (StateMachine.states sm) target) eqn:Hin; [| done].
  simpl. by apply StateMachine_includes_spec.
Qed.

Lemma StateMachine_transitions_cons target targets sm :
  StateMachine.transitions heap (target :: targets) sm
  = (fst (StateMachine.transitions heap targets
            (fst (fst (StateMachine.transitionTo heap target sm)))),
     snd (fst (StateMachine.transitionTo heap target sm))
       ++ snd (StateMachine.transitions heap targets
                 (fst (fst (StateMachine.transitionTo heap target sm))))).
Proof. reflexivity. Qed.

Lemma StateMachine_transitions_invariant targets sm :
  StateMachine.currentState sm ∈ StateMachine.states sm →
  StateMachine.states (fst (StateMachine.transitions heap targets sm))
  = StateMachine.states sm
  ∧ StateMachine.currentState (fst (StateMachine.transitions heap targets sm))
    ∈ StateMachine.states sm.
Proof.
  revert sm. induction targets as [| r targets IH]; intros sm Hcur; [done |].
  rewrite StateMachine_transitions_cons. cbn [fst].
  pose proof (StateMachine_transitionTo_states r sm) as Hst.
  pose proof (StateMachine_transitionTo_member r sm Hcur) as Hmem.
  rewrite <- Hst in Hmem. destruct (IH _ Hmem) as [IH1 IH2].
  rewrite Hst in IH1, IH2. done.
Qed.

Lemma StateMachine_new_inv (sts : list StateMachine.ref) sm t :
  StateMachine.new heap sts = Ok (sm, t) →
  StateMachine.states sm = sts
  ∧ sts !! 0 = Some (StateMachine.currentState sm)
  ∧ t = StateMachine.call_optional
          (StateMachine.onEnter (heap (StateMachine.currentState sm))) sm.
Proof.
  unfold StateMachine.new.
  destruct (length sts =? 0)%nat; [done |].
  destruct (sts !! 0) as [s0 |] eqn:H0; [| done].
  by intros [= <- <-].
Qed.

End StateMachineFacts.

(** C4.  Finite-state holder: a [transitionTo] whose target is not one of the
    state objects given at construction (membership is identity of the
    object, whatever its name) throws an error whose message carries the
    name of the rejected state, calls no hook, and leaves the machine, hence
    what [getCurrentState] returns, unchanged. *)
Theorem StateMachine_transitionTo_rejects_non_member :
  ∀ (heap : StateMachine.ref → StateMachine.machineState)
    (sm : StateMachine.StateMachine) (target : StateMachine.ref),
    target ∉ StateMachine.states sm →
    StateMachine.transitionTo heap target sm
    = (sm, [], Thrown ("Invalid state: " +:+ StateMachine.name (heap target)))
    ∧ StateMachine.getCurrentState
        (fst (fst (StateMachine.transitionTo heap target sm)))
      = StateMachine.getCurrentState sm.
Proof.
  intros heap sm target Hnot.
  apply StateMachine_includes_false in Hnot.
  unfold StateMachine.transitionTo. by rewrite Hnot.
Qed.

(** The machine over [A, B] rejects the other object named [B]. *)
Lemma StateMachine_transitionTo_rejects_non_member_witness :
  StateMachine.transitionTo Examples.machine_heap 2 Examples.machine_AB
  = (Examples.machine_AB, [], Thrown "Invalid state: B")
  ∧ StateMachine.getCurrentState
      (fst (fst (StateMachine.transitionTo Examples.machine_heap 2 Examples.machine_AB)))
    = 0.
Proof.
  apply (StateMachine_transitionTo_rejects_non_member
           Examples.machine_heap Examples.machine_AB 2).
  intros H. apply list_elem_of_In in H. simpl in H.
  destruct H as [H | [H | []]]; discriminate H.
Defined.

(** C5.  Finite-state holder: constructing with a non-empty collection makes
    its first entry current and calls that entry's [onEnter] (when it has
    one) once; a [transitionTo] whose target is in the collection calls the
    current state's [onExit] (when present) while the old state is still
    current, then the target's [onEnter] (when present) with the target
    already current, completes normally, and [getCurrentState] then returns
    the target. *)
Theorem StateMachine_exit_then_enter :
  ∀ (heap : StateMachine.ref → StateMachine.machineState),
    (∀ (s0 : StateMachine.ref) (rest : list StateMachine.ref),
        StateMachine.new heap (s0 :: rest)
        = Ok ({| StateMachine.states := s0 :: rest;
                 StateMachine.currentState := s0 |},
              match StateMachine.onEnter (heap s0) with
              | Some f => [(f, s0)]
              | None => []
              end))
    ∧ (∀ (sm : StateMachine.StateMachine) (target : StateMachine.ref),
        target ∈ StateMachine.states sm →
        StateMachine.transitionTo heap target sm
        = ({| StateMachine.states := StateMachine.states sm;
              StateMachine.currentState := target |},
           match StateMachine.onExit (heap (StateMachine.currentState sm)) with
           | Some f => [(f, StateMachine.currentState sm)]
           | None => []
           end
           ++ match StateMachine.onEnter (heap target) with
              | Some g => [(g, target)]
              | None => []
              end,
           Normal)
        ∧ StateMachine.getCurrentState
            (fst (fst (StateMachine.transitionTo heap target sm)))
          = target).
Proof.
  intros heap. split.
  - intros s0 rest. reflexivity.
  - intros sm target Hin. apply StateMachine_includes_spec in Hin.
    unfold StateMachine.transitionTo. rewrite Hin. done.
Qed.

(** Constructing over [A, B] calls [A.onEnter]; [transitionTo(B)] then calls
    [A.onExit] and [B.onEnter], in that order. *)
Lemma StateMachine_exit_then_enter_witness :
  StateMachine.new Examples.machine_heap [0; 1]
  = Ok (Examples.machine_AB, [(10, 0)])
  ∧ StateMachine.transitionTo Examples.machine_heap 1 Examples.machine_AB
    = ({| StateMachine.states := [0; 1]; StateMachine.currentState := 1 |},
       [(11, 0); (20, 1)], Normal).
Proof.
  split.
  - exact (proj1 (StateMachine_exit_then_enter Examples.machine_heap) 0 [1]).
  - refine (proj1 (proj2 (StateMachine_exit_then_enter Examples.machine_heap)
                     Examples.machine_AB 1 _)).
    apply list_elem_of_In. simpl. auto.
Defined.

(** C6.  Finite-state holder: for a machine returned by the constructor, and
    after any sequence of [transitionTo] calls, accepted or rejected, the
    state [getCurrentState] returns is a member of the collection given at
    construction, and that collection is still the machine's. *)
Theorem StateMachine_current_state_is_member :
  ∀ (heap : StateMachine.ref → StateMachine.machineState)
    (sts : list StateMachine.ref) (sm : StateMachine.StateMachine)
    (t : StateMachine.trace) (targets : list StateMachine.ref),
    StateMachine.new heap sts = Ok (sm, t) →
    StateMachine.getCurrentState sm ∈ sts
    ∧ StateMachine.getCurrentState (fst (StateMachine.transitions heap targets sm)) ∈ sts
    ∧ StateMachine.states (fst (StateMachine.transitions heap targets sm)) = sts.
Proof.
  intros heap sts sm t targets Hnew.
  apply StateMachine_new_inv in Hnew as (Hsts & H0 & _).
  assert (StateMachine.currentState sm ∈ StateMachine.states sm) as Hcur.
  { rewrite Hsts. apply list_elem_of_lookup. by exists 0. }
  destruct (StateMachine_transitions_invariant heap targets sm Hcur) as [H1 H2].
  unfold StateMachine.getCurrentState. rewrite <- Hsts. done.
Qed.

Lemma StateMachine_current_state_is_member_witness :
  StateMachine.getCurrentState Examples.machine_AB ∈ [0; 1]
  ∧ StateMachine.getCurrentState
      (fst (StateMachine.transitions Examples.machine_heap [1; 2; 0; 5; 1]
              Examples.machine_AB)) ∈ [0; 1]
  ∧ StateMachine.states
      (fst (StateMachine.transitions Examples.machine_heap [1; 2; 0; 5; 1]
              Examples.machine_AB)) = [0; 1].
Proof.
  apply (StateMachine_current_state_is_member Examples.machine_heap
           [0; 1] Examples.machine_AB [(10, 0)] [1; 2; 0; 5; 1]).
  reflexivity.
Defined.

(** The run of the witness ends in [B], having skipped the two rejected
    targets. *)
Example StateMachine_transitions_run :
  StateMachine.transitions Examples.machine_heap [1; 2; 0; 5; 1] Examples.machine_AB
  = ({| StateMachine.states := [0; 1]; StateMachine.currentState := 1 |},
     [(11, 0); (20, 1); (21, 1); (10, 0); (11, 0); (20, 1)]).
Proof. reflexivity. Qed.

(** ** The change-aware container *)

Arguments JS.JSON_stringify : simpl never.
Arguments JS.stringify_neq : simpl never.
Arguments ProxyState.raw_assign : simpl never.

Lemma JS_stringify_neq_true a b :
  JS.stringify_neq a b = true ↔ JS.JSON_stringify a ≠ JS.JSON_stringify b.
Proof. apply bool_decide_eq_true. Qed.

Lemma JS_stringify_neq_false a b :
  JS.stringify_neq a b = false ↔ JS.JSON_stringify a = JS.JSON_stringify b.
Proof.
  unfold JS.stringify_neq. rewrite bool_decide_eq_false.
  split; [apply dec_stable | auto].
Qed.

Section ProxyStateFacts.
Implicit Types (m : ProxyState.ProxyStateManager) (c : ProxyState.call)
  (cs : list ProxyState.call) (l : nat).

(** Case analysis on the two tests of [setState] and of the [set] trap. *)
Ltac proxy_cases :=
  repeat (match goal with
    | |- context [JS.stringify_neq ?a ?b] =>
        let E := fresh "Hneq" in destruct (JS.stringify_neq a b) eqn:E
    | |- context [negb ?b] => is_var b; destruct b
    | |- context [ProxyState.raw_assign ?p ?q ?v ?o] =>
        destruct (ProxyState.raw_assign p q v o)
    end; simpl).

Lemma ProxyState_endBatchUpdates_eq m :
  ProxyState.endBatchUpdates m
  = (ProxyState.with_isBatchingUpdates false
       (ProxyState.with_pendingNotifications [] m),
     map (λ listener, (listener, ProxyState.state m))
       (ProxyState.pendingNotifications m)).
Proof. destruct m as [s ls b [| x p] h]; reflexivity. Qed.

Lemma ProxyState_run_cons c cs m :
  ProxyState.run (c :: cs) m
  = (fst (ProxyState.run cs (fst (ProxyState.step c m))),
     snd (ProxyState.step c m) ++ snd (ProxyState.run cs (fst (ProxyState.step c m)))).
Proof. reflexivity. Qed.

Lemma proxy_wf_step c m : proxy_wf m → proxy_wf (fst (ProxyState.step c m)).
Proof.
  intros [Hls Hp]. destruct m as [s ls b p h]. simpl in Hls, Hp.
  destruct c as [action | path prop value | x | x | |]; simpl.
  - unfold ProxyState.setState; simpl. proxy_cases; split; simpl; auto.
    by apply JSSet_NoDup_add_all.
  - destruct path as [| q path]; simpl.
    + unfold ProxyState.handler_set; simpl. proxy_cases; split; simpl; auto.
      by apply JSSet_NoDup_add_all.
    + proxy_cases; split; simpl; auto.
  - split; simpl; [by apply JSSet_NoDup_add | done].
  - split; simpl; [by apply JSSet_NoDup_delete | done].
  - by split.
  - rewrite ProxyState_endBatchUpdates_eq. split; simpl; [done | apply NoDup_nil_2].
Qed.

Lemma proxy_idle_step c m : proxy_idle m → proxy_idle (fst (ProxyState.step c m)).
Proof.
  unfold proxy_idle. destruct m as [s ls b p h]. simpl. intros Hidle.
  destruct c as [action | path prop value | x | x | |]; simpl; auto.
  - unfold ProxyState.setState; simpl. destruct b; proxy_cases; auto; done.
  - destruct path as [| q path]; simpl.
    + unfold ProxyState.handler_set; simpl. destruct b; proxy_cases; auto; done.
    + proxy_cases; auto.
  - done.
  - by rewrite ProxyState_endBatchUpdates_eq.
Qed.

Lemma proxy_wf_run cs m : proxy_wf m → proxy_wf (fst (ProxyState.run cs m)).
Proof.
  revert m. induction cs as [| c cs IH]; intros m Hwf; [done |].
  rewrite ProxyState_run_cons. cbn [fst]. by apply IH, proxy_wf_step.
Qed.

Lemma proxy_idle_run cs m : proxy_idle m → proxy_idle (fst (ProxyState.run cs m)).
Proof.
  revert m. induction cs as [| c cs IH]; intros m Hwf; [done |].
  rewrite ProxyState_run_cons. cbn [fst]. by apply IH, proxy_idle_step.
Qed.

Lemma ProxyState_new_inv (initialState : JS.value) m :
  ProxyState.new initialState = Ok m →
  initialState = JS.Obj (ProxyState.state m)
  ∧ ProxyState.listeners m = []
  ∧ ProxyState.isBatchingUpdates m = false
  ∧ ProxyState.pendingNotifications m = [].
Proof.
  unfold ProxyState.new. destruct initialState; simpl; try done.
  by intros [= <-].
Qed.

(** Every manager a program can hold, namely one reached from the
    constructor by calls, is well formed and has nothing pending outside a
    batch. *)
Lemma ProxyState_reachable_invariant (initialState : JS.value) m0 cs :
  ProxyState.new initialState = Ok m0 →
  proxy_wf (fst (ProxyState.run cs m0)) ∧ proxy_idle (fst (ProxyState.run cs m0)).
Proof.
  intros (_ & Hls & Hb & Hp)%ProxyState_new_inv. split.
  - apply proxy_wf_run. split; rewrite ?Hls, ?Hp; apply NoDup_nil_2.
  - apply proxy_idle_run. by intros _.
Qed.

(** The constructor accepts exactly the non-null values of type "object". *)
Lemma ProxyState_new_accepts (initialState : JS.value) :
  (∃ m, ProxyState.new initialState = Ok m)
  ↔ JS.typeof initialState = "object" ∧ initialState ≠ JS.Null.
Proof.
  destruct initialState; simpl; split;
    try (intros [m Hm]; discriminate Hm);
    try (intros [Hty Hnull]; first [discriminate Hty | done]).
  intros _. eexists. reflexivity.
Qed.

End ProxyStateFacts.

(** Closed goals about concrete lists of listeners. *)
Ltac solve_concrete :=
  first [ reflexivity
        | by (apply (bool_decide_unpack _); vm_compute)
        | by (vm_compute; congruence) ].

(** The example managers are the ones the constructor and [subscribe]
    produce. *)
Example Examples_proxy_count0_reachable :
  (m0 ← match ProxyState.new (JS.Obj (Examples.count 0)) with
        | Ok m => Some m
        | Throw _ => None
        end;
   Some (ProxyState.run [ProxyState.Subscribe 1; ProxyState.Subscribe 2] m0))
  = Some (Examples.proxy_count0, []).
Proof. reflexivity. Qed.

Example Examples_proxy_user_reachable :
  (m0 ← match ProxyState.new (JS.Obj (Examples.user "ann")) with
        | Ok m => Some m
        | Throw _ => None
        end;
   Some (ProxyState.run [ProxyState.Subscribe 1] m0))
  = Some (Examples.proxy_user, []).
Proof. reflexivity. Qed.

(** The constructor rejects a number, as the test suite expects. *)
Example ProxyState_new_rejects_number :
  ProxyState.new (JS.Num 0)
  = Throw "ProxyStateManager can only manage state of type 'object'.".
Proof. reflexivity. Qed.

Section ProxyStateSetState.
Implicit Types (m : ProxyState.ProxyStateManager)
  (action : SetStateAction ProxyState.T).

Lemma ProxyState_setState_same action m :
  JS.JSON_stringify (JS.Obj (resolve action (ProxyState.state m)))
  = JS.JSON_stringify (JS.Obj (ProxyState.state m)) →
  ProxyState.setState action m = (m, []).
Proof.
  intros Heq. unfold ProxyState.setState.
  assert (JS.stringify_neq (JS.Obj (ProxyState.state m))
            (JS.Obj (resolve action (ProxyState.state m))) = false) as ->; [| done].
  by apply JS_stringify_neq_false.
Qed.

Lemma ProxyState_setState_differ action m :
  JS.JSON_stringify (JS.Obj (resolve action (ProxyState.state m)))
  ≠ JS.JSON_stringify (JS.Obj (ProxyState.state m)) →
  ProxyState.setState action m
  = if ProxyState.isBatchingUpdates m
    then (ProxyState.queueListeners
            (ProxyState.with_state (resolve action (ProxyState.state m)) m), [])
    else (ProxyState.with_state (resolve action (ProxyState.state m)) m,
          map (λ listener, (listener, resolve action (ProxyState.state m)))
            (ProxyState.listeners m)).
Proof.
  intros Hne. unfold ProxyState.setState.
  assert (JS.stringify_neq (JS.Obj (ProxyState.state m))
            (JS.Obj (resolve action (ProxyState.state m))) = true) as ->.
  { apply JS_stringify_neq_true. congruence. }
  destruct m as [s ls [] p h]; reflexivity.
Qed.

End ProxyStateSetState.

(** C1.  Change-aware container, [setState]: when the new state serializes
    like the current one the call invokes no listener and leaves the manager
    as it is; when the serializations differ and no batch is open, the new
    state is stored and the listeners called are exactly the subscribed
    ones, each once, each with the new state. *)
Theorem ProxyState_setState_notifies_iff_changed :
  ∀ (m : ProxyState.ProxyStateManager) (action : SetStateAction ProxyState.T),
    (JS.JSON_stringify (JS.Obj (resolve action (ProxyState.state m)))
     = JS.JSON_stringify (JS.Obj (ProxyState.state m)) →
     ProxyState.setState action m = (m, []))
    ∧ (JS.JSON_stringify (JS.Obj (resolve action (ProxyState.state m)))
       ≠ JS.JSON_stringify (JS.Obj (ProxyState.state m)) →
       ProxyState.isBatchingUpdates m = false →
       NoDup (ProxyState.listeners m) →
       ProxyState.getState (fst (ProxyState.setState action m))
       = resolve action (ProxyState.state m)
       ∧ called (snd (ProxyState.setState action m)) = ProxyState.listeners m
       ∧ (∀ l, l ∈ ProxyState.listeners m →
              calls l (snd (ProxyState.setState action m)) = 1)
       ∧ (∀ e, e ∈ snd (ProxyState.setState action m) →
              e.2 = resolve action (ProxyState.state m))).
Proof.
  intros m action. split.
  - apply ProxyState_setState_same.
  - intros Hne Hb Hnd. rewrite (ProxyState_setState_differ _ _ Hne), Hb.
    cbn [fst snd]. repeat split.
    + apply called_notify.
    + intros l Hl. by apply calls_notify_elem.
    + intros e He. by apply elem_of_notify in He as [? _].
Qed.

(** On [{count: 0}] with listeners [1] and [2]: [setState({count: 0})] is
    silent, [setState({count: 10})] calls both once with [{count: 10}]. *)
Lemma ProxyState_setState_notifies_iff_changed_witness :
  ProxyState.setState (Value (Examples.count 0)) Examples.proxy_count0
  = (Examples.proxy_count0, [])
  ∧ (ProxyState.getState
       (fst (ProxyState.setState (Value (Examples.count 10)) Examples.proxy_count0))
     = Examples.count 10
     ∧ called (snd (ProxyState.setState (Value (Examples.count 10)) Examples.proxy_count0))
       = [1; 2]
     ∧ (∀ l, l ∈ [1; 2] →
            calls l (snd (ProxyState.setState (Value (Examples.count 10))
                            Examples.proxy_count0)) = 1)
     ∧ (∀ e, e ∈ snd (ProxyState.setState (Value (Examples.count 10))
                        Examples.proxy_count0) →
            e.2 = Examples.count 10)).
Proof.
  split.
  - apply (proj1 (ProxyState_setState_notifies_iff_changed
                    Examples.proxy_count0 (Value (Examples.count 0)))).
    reflexivity.
  - apply (proj2 (ProxyState_setState_notifies_iff_changed
                    Examples.proxy_count0 (Value (Examples.count 10))));
      solve_concrete.
Defined.

(** The end-to-end run: two increments of [{count: 0}] give [{count: 2}],
    and each listener is called twice. *)
Example ProxyState_two_increments :
  ProxyState.run
    [ProxyState.SetState (Updater Examples.increment);
     ProxyState.SetState (Updater Examples.increment)] Examples.proxy_count0
  = (ProxyState.with_state (Examples.count 2) Examples.proxy_count0,
     [(1, Examples.count 1); (2, Examples.count 1);
      (1, Examples.count 2); (2, Examples.count 2)]).
Proof. reflexivity. Qed.

Example ProxyState_setState_count10 :
  ProxyState.setState (Value (Examples.count 10)) Examples.proxy_count0
  = (ProxyState.with_state (Examples.count 10) Examples.proxy_count0,
     [(1, Examples.count 10); (2, Examples.count 10)]).
Proof. reflexivity. Qed.

Section ProxyStateBatch.
Implicit Types (m : ProxyState.ProxyStateManager) (a b : ProxyState.T).

(** What the batch [begin; set(a); set(b); end] computes when both
    [setState] calls change the serialization. *)
Lemma ProxyState_batch_run m a b :
  JS.JSON_stringify (JS.Obj (ProxyState.state m)) ≠ JS.JSON_stringify (JS.Obj a) →
  JS.JSON_stringify (JS.Obj a) ≠ JS.JSON_stringify (JS.Obj b) →
  ProxyState.run
    [ProxyState.BeginBatchUpdates; ProxyState.SetState (Value a);
     ProxyState.SetState (Value b); ProxyState.EndBatchUpdates] m
  = ({| ProxyState.state := b;
        ProxyState.listeners := ProxyState.listeners m;
        ProxyState.isBatchingUpdates := false;
        ProxyState.pendingNotifications := [];
        ProxyState.hasStateChanged := ProxyState.hasStateChanged m |},
     map (λ listener, (listener, b))
       (JSSet.add_all (ProxyState.listeners m)
          (JSSet.add_all (ProxyState.listeners m)
             (ProxyState.pendingNotifications m)))).
Proof.
  intros Ha Hb.
  pose (m1 := ProxyState.beginBatchUpdates m).
  pose (m2 := ProxyState.queueListeners (ProxyState.with_state a m1)).
  pose (m3 := ProxyState.queueListeners (ProxyState.with_state b m2)).
  assert (ProxyState.setState (Value a) m1 = (m2, [])) as E1.
  { rewrite ProxyState_setState_differ; [reflexivity | simpl; congruence]. }
  assert (ProxyState.setState (Value b) m2 = (m3, [])) as E2.
  { rewrite ProxyState_setState_differ; [reflexivity | simpl; congruence]. }
  rewrite !ProxyState_run_cons. cbn [ProxyState.step].
  change (ProxyState.beginBatchUpdates m) with m1. cbn [fst snd].
  rewrite E1. cbn [fst snd]. rewrite E2. cbn [fst snd].
  rewrite ProxyState_endBatchUpdates_eq. destruct m as [s ls bt p h]. simpl.
  by rewrite app_nil_r.
Qed.

(** Flushing a duplicate-free pending set calls each of its members once
    and nobody else. *)
Lemma calls_flush (T : Type) (l : nat) (pending : list nat) (v : T) :
  NoDup pending →
  calls l (map (λ listener, (listener, v)) pending)
  = if decide (l ∈ pending) then 1 else 0.
Proof.
  intros Hnd. case_decide.
  - by apply calls_notify_elem.
  - by apply calls_notify_not_elem.
Qed.

End ProxyStateBatch.

(** C2.  Change-aware container: the sequence [beginBatchUpdates();
    setState(a); setState(b); endBatchUpdates()], where [a] serializes
    differently from the state before and [b] differently from [a], calls
    every subscribed listener exactly once, no listener more than once, and
    every call is handed the state [b]; afterwards the state is [b], nothing
    is pending and the batching mode is off. *)
Theorem ProxyState_batch_notifies_once :
  ∀ (m m' : ProxyState.ProxyStateManager) (a b : ProxyState.T)
    (t : ProxyState.trace),
    proxy_wf m →
    JS.JSON_stringify (JS.Obj (ProxyState.state m)) ≠ JS.JSON_stringify (JS.Obj a) →
    JS.JSON_stringify (JS.Obj a) ≠ JS.JSON_stringify (JS.Obj b) →
    ProxyState.run
      [ProxyState.BeginBatchUpdates; ProxyState.SetState (Value a);
       ProxyState.SetState (Value b); ProxyState.EndBatchUpdates] m = (m', t) →
    (∀ l, l ∈ ProxyState.listeners m → calls l t = 1)
    ∧ (∀ l, calls l t ≤ 1)
    ∧ (∀ e, e ∈ t → e.2 = b)
    ∧ ProxyState.getState m' = b
    ∧ ProxyState.listeners m' = ProxyState.listeners m
    ∧ ProxyState.pendingNotifications m' = []
    ∧ ProxyState.isBatchingUpdates m' = false.
Proof.
  intros m m' a b t [Hls Hp] Ha Hb Hrun.
  rewrite (ProxyState_batch_run m a b Ha Hb) in Hrun.
  injection Hrun as <- <-.
  assert (NoDup (JSSet.add_all (ProxyState.listeners m)
                   (JSSet.add_all (ProxyState.listeners m)
                      (ProxyState.pendingNotifications m)))) as Hnd.
  { by do 2 apply JSSet_NoDup_add_all. }
  repeat split.
  - intros l Hl. rewrite calls_flush by done.
    rewrite decide_True; [done |]. apply JSSet_elem_of_add_all. by right.
  - intros l. rewrite calls_flush by done. case_decide; lia.
  - intros e He. by apply elem_of_notify in He as [? _].
Qed.

(** The batching test of the suite, with two listeners: [{count: 40}] then
    [{count: 50}] inside a batch. *)
Lemma ProxyState_batch_notifies_once_witness :
  (∀ l, l ∈ [1; 2] → calls l [(1, Examples.count 50); (2, Examples.count 50)] = 1)
  ∧ (∀ l, calls l [(1, Examples.count 50); (2, Examples.count 50)] ≤ 1)
  ∧ (∀ e, e ∈ [(1, Examples.count 50); (2, Examples.count 50)] →
          e.2 = Examples.count 50)
  ∧ ProxyState.getState
      (ProxyState.with_state (Examples.count 50) Examples.proxy_count0)
    = Examples.count 50
  ∧ ProxyState.listeners
      (ProxyState.with_state (Examples.count 50) Examples.proxy_count0) = [1; 2]
  ∧ ProxyState.pendingNotifications
      (ProxyState.with_state (Examples.count 50) Examples.proxy_count0) = []
  ∧ ProxyState.isBatchingUpdates
      (ProxyState.with_state (Examples.count 50) Examples.proxy_count0) = false.
Proof.
  apply (ProxyState_batch_notifies_once Examples.proxy_count0
           (ProxyState.with_state (Examples.count 50) Examples.proxy_count0)
           (Examples.count 40) (Examples.count 50)
           [(1, Examples.count 50); (2, Examples.count 50)]).
  - split; solve_concrete.
  - solve_concrete.
  - solve_concrete.
  - reflexivity.
Defined.

Section ProxyStateAssign.
Implicit Types (m : ProxyState.ProxyStateManager) (prop : string)
  (value : JS.value).

Lemma ProxyState_handler_set_same prop value m :
  JS.JSON_stringify (JS.get (ProxyState.state m) prop) = JS.JSON_stringify value →
  ProxyState.handler_set prop value m
  = (ProxyState.with_state (JS.set (ProxyState.state m) prop value) m, []).
Proof.
  intros Heq%JS_stringify_neq_false. unfold ProxyState.handler_set.
  by rewrite Heq.
Qed.

Lemma ProxyState_handler_set_differ prop value m :
  JS.JSON_stringify (JS.get (ProxyState.state m) prop) ≠ JS.JSON_stringify value →
  ProxyState.handler_set prop value m
  = let m' :=
      ProxyState.with_hasStateChanged true
        (ProxyState.with_state (JS.set (ProxyState.state m) prop value) m) in
    if ProxyState.isBatchingUpdates m
    then (ProxyState.queueListeners m', [])
    else (m', map (λ listener, (listener, JS.set (ProxyState.state m) prop value))
                (ProxyState.listeners m)).
Proof.
  intros Hne%JS_stringify_neq_true. unfold ProxyState.handler_set.
  rewrite Hne. destruct m as [s ls [] p h]; reflexivity.
Qed.

(** An assignment below the top level only replaces the state. *)
Lemma ProxyState_assign_nested p path prop value m :
  ProxyState.assign (p :: path) prop value m
  = match ProxyState.raw_assign (p :: path) prop value (ProxyState.state m) with
    | Some o => (ProxyState.with_state o m, [], Normal)
    | None => (m, [], Thrown "TypeError")
    end.
Proof. reflexivity. Qed.

End ProxyStateAssign.

(** C3, as the specification states it, fails on an assignment reached
    through a nested reference.  With listener [1] subscribed to
    [{user: {name: "ann"}}] and no batch open, the statement
    [getState().user.name = "bob"] completes normally and lands (the state
    is then [{user: {name: "bob"}}]), the serialized value of the property
    and that of the whole state both differ from the prior ones, and yet no
    listener is called. *)
Lemma ProxyState_nested_assignment_not_intercepted :
  ProxyState.assign ["user"] "name" (JS.Str "bob") Examples.proxy_user
  = (ProxyState.with_state (Examples.user "bob") Examples.proxy_user, [], Normal)
  ∧ ProxyState.listeners Examples.proxy_user = [1]
  ∧ ProxyState.isBatchingUpdates Examples.proxy_user = false
  ∧ JS.JSON_stringify (JS.Str "ann") ≠ JS.JSON_stringify (JS.Str "bob")
  ∧ JS.JSON_stringify (JS.Obj (Examples.user "ann"))
    ≠ JS.JSON_stringify (JS.Obj (Examples.user "bob")).
Proof. repeat split; solve_concrete. Qed.

(** C3, amended.  An assignment to a top-level property of the wrapped
    state is intercepted: it completes normally, the write always lands,
    and, when no batch is open, the listeners called are exactly the
    subscribed ones, each once and each with the whole new state, if the
    serialized new value of the property differs from its serialized old
    value, and nobody is called if the two serializations agree.  An
    assignment to a property of an object nested inside the state is not
    intercepted: when it lands it changes the state, and it never calls a
    listener nor touches the listeners, the pending set or the flags. *)
Theorem ProxyState_top_level_assignment_intercepted :
  ∀ (m : ProxyState.ProxyStateManager) (prop : string) (value : JS.value),
    (NoDup (ProxyState.listeners m) →
     ProxyState.isBatchingUpdates m = false →
     snd (ProxyState.assign [] prop value m) = Normal
     ∧ ProxyState.getState (fst (fst (ProxyState.assign [] prop value m)))
       = JS.set (ProxyState.state m) prop value
     ∧ (JS.JSON_stringify (JS.get (ProxyState.state m) prop) ≠ JS.JSON_stringify value →
        called (snd (fst (ProxyState.assign [] prop value m))) = ProxyState.listeners m
        ∧ (∀ l, l ∈ ProxyState.listeners m →
               calls l (snd (fst (ProxyState.assign [] prop value m))) = 1)
        ∧ (∀ e, e ∈ snd (fst (ProxyState.assign [] prop value m)) →
               e.2 = JS.set (ProxyState.state m) prop value))
     ∧ (JS.JSON_stringify (JS.get (ProxyState.state m) prop) = JS.JSON_stringify value →
        snd (fst (ProxyState.assign [] prop value m)) = []))
    ∧ (∀ (p : string) (path : list string),
        snd (fst (ProxyState.assign (p :: path) prop value m)) = []
        ∧ (∀ o, ProxyState.raw_assign (p :: path) prop value (ProxyState.state m) = Some o →
               ProxyState.assign (p :: path) prop value m
               = (ProxyState.with_state o m, [], Normal))
        ∧ ProxyState.listeners (fst (fst (ProxyState.assign (p :: path) prop value m)))
          = ProxyState.listeners m
        ∧ ProxyState.pendingNotifications
            (fst (fst (ProxyState.assign (p :: path) prop value m)))
          = ProxyState.pendingNotifications m
        ∧ ProxyState.isBatchingUpdates
            (fst (fst (ProxyState.assign (p :: path) prop value m)))
          = ProxyState.isBatchingUpdates m
        ∧ ProxyState.hasStateChanged
            (fst (fst (ProxyState.assign (p :: path) prop value m)))
          = ProxyState.hasStateChanged m).
Proof.
  intros m prop value. split.
  - intros Hnd Hb. cbn [ProxyState.assign fst snd]. split; [done |].
    destruct (decide (JS.JSON_stringify (JS.get (ProxyState.state m) prop)
                      = JS.JSON_stringify value)) as [Heq | Hne].
    + rewrite (ProxyState_handler_set_same _ _ _ Heq). cbn [fst snd].
      split; [done |]. split; [intros Hne; by destruct Hne | done].
    + rewrite (ProxyState_handler_set_differ _ _ _ Hne), Hb. cbn [fst snd].
      split; [done |]. split; [intros _ | intros Heq; by destruct Hne].
      split; [apply called_notify |]. split.
      * intros l Hl. by apply calls_notify_elem.
      * intros e He. by apply elem_of_notify in He as [? _].
  - intros p path. rewrite ProxyState_assign_nested.
    destruct (ProxyState.raw_assign (p :: path) prop value (ProxyState.state m));
      repeat split; intros; congruence.
Qed.

(** On [{count: 0}] with listeners [1] and [2]: [getState().count = 5]
    calls both with [{count: 5}]; on [{user: {name: "ann"}}] a write to
    [user.name] calls nobody. *)
Lemma ProxyState_top_level_assignment_intercepted_witness :
  (called (snd (fst (ProxyState.assign [] "count" (JS.Num 5) Examples.proxy_count0)))
   = [1; 2]
   ∧ (∀ l, l ∈ [1; 2] →
          calls l (snd (fst (ProxyState.assign [] "count" (JS.Num 5)
                               Examples.proxy_count0))) = 1)
   ∧ (∀ e, e ∈ snd (fst (ProxyState.assign [] "count" (JS.Num 5)
                           Examples.proxy_count0)) →
          e.2 = Examples.count 5))
  ∧ snd (fst (ProxyState.assign ["user"] "name" (JS.Str "bob") Examples.proxy_user))
    = [].
Proof.
  split.
  - refine (proj1 (proj2 (proj2
      (proj1 (ProxyState_top_level_assignment_intercepted
                Examples.proxy_count0 "count" (JS.Num 5)) _ _))) _);
      solve_concrete.
  - exact (proj1 (proj2 (ProxyState_top_level_assignment_intercepted
                           Examples.proxy_user "name" (JS.Str "bob")) "user" [])).
Defined.

Section ProxyStateBatching.
Implicit Types (m : ProxyState.ProxyStateManager) (c : ProxyState.call)
  (cs : list ProxyState.call) (l : nat).

(** Inside a batch a call announces nothing; it queues the listeners
    registered at that moment exactly when it changes the state. *)
Lemma ProxyState_step_in_batch c m :
  ProxyState.isBatchingUpdates m = true →
  ProxyState.within_batch c = true →
  snd (ProxyState.step c m) = []
  ∧ ProxyState.isBatchingUpdates (fst (ProxyState.step c m)) = true
  ∧ ProxyState.pendingNotifications (fst (ProxyState.step c m))
    = if ProxyState.changes c m
      then JSSet.add_all (ProxyState.listeners m) (ProxyState.pendingNotifications m)
      else ProxyState.pendingNotifications m.
Proof.
  intros Hb Hc. destruct m as [s ls b p h]. simpl in Hb. subst b.
  destruct c as [action | path prop value | x | x | |]; try discriminate Hc.
  - cbn [ProxyState.step ProxyState.changes ProxyState.state].
    unfold ProxyState.setState. cbn [ProxyState.state].
    by destruct (JS.stringify_neq _ _).
  - destruct path as [| q path].
    + cbn [ProxyState.step ProxyState.changes ProxyState.state ProxyState.assign fst].
      unfold ProxyState.handler_set. cbn [ProxyState.state].
      by destruct (JS.stringify_neq _ _).
    + cbn [ProxyState.step ProxyState.changes]. rewrite ProxyState_assign_nested.
      by destruct (ProxyState.raw_assign _ _ _ _).
  - done.
  - done.
Qed.

Lemma registered_at_change_nil l m : ¬ registered_at_change l [] m.
Proof. intros (pre & c & post & Hcs & _). by destruct pre. Qed.

Lemma registered_at_change_cons l c cs m :
  registered_at_change l (c :: cs) m
  ↔ (ProxyState.changes c m = true ∧ l ∈ ProxyState.listeners m)
    ∨ registered_at_change l cs (fst (ProxyState.step c m)).
Proof.
  split.
  - intros (pre & c0 & post & Hcs & Hch & Hl). destruct pre as [| c1 pre].
    + simpl in Hcs. injection Hcs as <- <-. by left.
    + simpl in Hcs. injection Hcs as <- ->. right.
      exists pre, c0, post. by rewrite ProxyState_run_cons in Hch, Hl.
  - intros [[Hch Hl] | (pre & c0 & post & -> & Hch & Hl)].
    + by exists [], c, cs.
    + exists (c :: pre), c0, post. by rewrite ProxyState_run_cons.
Qed.

(** What is pending at the end of a batch. *)
Lemma ProxyState_batch_pending cs m :
  ProxyState.isBatchingUpdates m = true →
  forallb ProxyState.within_batch cs = true →
  snd (ProxyState.run cs m) = []
  ∧ ProxyState.isBatchingUpdates (fst (ProxyState.run cs m)) = true
  ∧ (∀ l, l ∈ ProxyState.pendingNotifications (fst (ProxyState.run cs m))
          ↔ l ∈ ProxyState.pendingNotifications m ∨ registered_at_change l cs m).
Proof.
  revert m. induction cs as [| c cs IH]; intros m Hb Hcs.
  - simpl. repeat split; [done | by left |].
    intros [? | Hr]; [done | by apply registered_at_change_nil in Hr].
  - simpl in Hcs. apply andb_prop in Hcs as [Hc Hcs].
    destruct (ProxyState_step_in_batch c m Hb Hc) as (Ht & Hb1 & Hp1).
    destruct (IH _ Hb1 Hcs) as (IHt & IHb & IHp).
    rewrite ProxyState_run_cons. cbn [fst snd]. rewrite Ht, IHt.
    split; [done |]. split; [done |]. intros l.
    rewrite IHp, Hp1, registered_at_change_cons.
    destruct (ProxyState.changes c m).
    + rewrite JSSet_elem_of_add_all. intuition.
    + intuition congruence.
Qed.

End ProxyStateBatching.

(** C10.  Change-aware container: open a batch on a manager with nothing
    pending, make any calls other than [beginBatchUpdates] and
    [endBatchUpdates], then flush.  No listener is called before the flush,
    and the flush calls exactly the listeners that were registered at the
    moment of some state-changing call of the batch, each once, with the
    state at the time of the flush.  So a listener subscribed after the last
    state-changing call is not called, and one unsubscribed after a
    state-changing call still is. *)
Theorem ProxyState_flush_calls_listeners_registered_at_changes :
  ∀ (m : ProxyState.ProxyStateManager) (cs : list ProxyState.call),
    proxy_wf m →
    ProxyState.pendingNotifications m = [] →
    forallb ProxyState.within_batch cs = true →
    snd (ProxyState.run cs (ProxyState.beginBatchUpdates m)) = []
    ∧ (∀ l, l ∈ called (snd (ProxyState.endBatchUpdates
                               (fst (ProxyState.run cs (ProxyState.beginBatchUpdates m)))))
            ↔ registered_at_change l cs (ProxyState.beginBatchUpdates m))
    ∧ (∀ l, registered_at_change l cs (ProxyState.beginBatchUpdates m) →
            calls l (snd (ProxyState.endBatchUpdates
                            (fst (ProxyState.run cs (ProxyState.beginBatchUpdates m)))))
            = 1)
    ∧ (∀ l, ¬ registered_at_change l cs (ProxyState.beginBatchUpdates m) →
            calls l (snd (ProxyState.endBatchUpdates
                            (fst (ProxyState.run cs (ProxyState.beginBatchUpdates m)))))
            = 0)
    ∧ (∀ e, e ∈ snd (ProxyState.endBatchUpdates
                       (fst (ProxyState.run cs (ProxyState.beginBatchUpdates m)))) →
            e.2 = ProxyState.getState
                    (fst (ProxyState.run cs (ProxyState.beginBatchUpdates m))))
    ∧ ProxyState.pendingNotifications
        (fst (ProxyState.endBatchUpdates
                (fst (ProxyState.run cs (ProxyState.beginBatchUpdates m))))) = []
    ∧ ProxyState.isBatchingUpdates
        (fst (ProxyState.endBatchUpdates
                (fst (ProxyState.run cs (ProxyState.beginBatchUpdates m))))) = false.
Proof.
  intros m cs Hwf Hp Hcs.
  destruct (ProxyState_batch_pending cs (ProxyState.beginBatchUpdates m) eq_refl Hcs)
    as (Ht & _ & Hpend).
  assert (proxy_wf (fst (ProxyState.run cs (ProxyState.beginBatchUpdates m))))
    as [_ Hnd].
  { apply proxy_wf_run. by destruct Hwf. }
  assert (∀ l, l ∈ ProxyState.pendingNotifications
                      (fst (ProxyState.run cs (ProxyState.beginBatchUpdates m)))
               ↔ registered_at_change l cs (ProxyState.beginBatchUpdates m)) as Hiff.
  { intros l. rewrite Hpend.
    change (ProxyState.pendingNotifications (ProxyState.beginBatchUpdates m))
      with (ProxyState.pendingNotifications m).
    rewrite Hp, elem_of_nil. tauto. }
  rewrite ProxyState_endBatchUpdates_eq. cbn [fst snd].
  split; [done |]. split; [| split; [| split; [| split]]].
  - intros l. by rewrite called_notify.
  - intros l Hr. apply calls_notify_elem; [done | by apply Hiff].
  - intros l Hr. apply calls_notify_not_elem. by rewrite Hiff.
  - intros e He. by apply elem_of_notify in He as [? _].
  - done.
Qed.

(** A batch on [{count: 0}] with listeners [1] and [2]: the state changes
    to [{count: 1}], then [1] unsubscribes, [3] subscribes, and [count] is
    assigned the value it already has.  The flush calls [1] and [2], and
    does not call [3]. *)
Lemma ProxyState_flush_calls_listeners_registered_at_changes_witness :
  snd (ProxyState.run Examples.batch_calls
         (ProxyState.beginBatchUpdates Examples.proxy_count0)) = []
  ∧ (∀ l, l ∈ called [(1, Examples.count 1); (2, Examples.count 1)]
          ↔ registered_at_change l Examples.batch_calls
              (ProxyState.beginBatchUpdates Examples.proxy_count0))
  ∧ (∀ l, registered_at_change l Examples.batch_calls
            (ProxyState.beginBatchUpdates Examples.proxy_count0) →
          calls l [(1, Examples.count 1); (2, Examples.count 1)] = 1)
  ∧ (∀ l, ¬ registered_at_change l Examples.batch_calls
              (ProxyState.beginBatchUpdates Examples.proxy_count0) →
          calls l [(1, Examples.count 1); (2, Examples.count 1)] = 0)
  ∧ (∀ e, e ∈ [(1, Examples.count 1); (2, Examples.count 1)] →
          e.2 = Examples.count 1)
  ∧ ProxyState.pendingNotifications
      (fst (ProxyState.endBatchUpdates
              (fst (ProxyState.run Examples.batch_calls
                      (ProxyState.beginBatchUpdates Examples.proxy_count0))))) = []
  ∧ ProxyState.isBatchingUpdates
      (fst (ProxyState.endBatchUpdates
              (fst (ProxyState.run Examples.batch_calls
                      (ProxyState.beginBatchUpdates Examples.proxy_count0))))) = false.
Proof.
  apply (ProxyState_flush_calls_listeners_registered_at_changes
           Examples.proxy_count0 Examples.batch_calls).
  - split; solve_concrete.
  - reflexivity.
  - reflexivity.
Defined.

(** The whole batch of the witness, run: listener [1], unsubscribed after
    the change, is called at the flush; listener [3], subscribed after the
    last change, is not. *)
Example ProxyState_flush_run :
  ProxyState.run
    (ProxyState.BeginBatchUpdates :: Examples.batch_calls ++ [ProxyState.EndBatchUpdates])
    Examples.proxy_count0
  = ({| ProxyState.state := Examples.count 1;
        ProxyState.listeners := [2; 3];
        ProxyState.isBatchingUpdates := false;
        ProxyState.pendingNotifications := [];
        ProxyState.hasStateChanged := false |},
     [(1, Examples.count 1); (2, Examples.count 1)]).
Proof. reflexivity. Qed.

(** ** Unsubscribed listeners of the change-aware container *)

Section ProxyStateMutations.
Implicit Types (m : ProxyState.ProxyStateManager) (c : ProxyState.call)
  (cs : list ProxyState.call) (l : nat).

Lemma called_app {T : Type} (t1 t2 : list (nat * T)) :
  called (t1 ++ t2) = called t1 ++ called t2.
Proof. apply map_app. Qed.

(** A mutation keeps the listeners and calls registered listeners only. *)
Lemma ProxyState_step_mutation c m :
  ProxyState.is_mutation c = true →
  ProxyState.listeners (fst (ProxyState.step c m)) = ProxyState.listeners m
  ∧ (∀ l, l ∈ called (snd (ProxyState.step c m)) → l ∈ ProxyState.listeners m).
Proof.
  intros Hc. destruct m as [s ls b p h].
  destruct c as [action | path prop value | x | x | |]; try discriminate Hc.
  - cbn [ProxyState.step]. unfold ProxyState.setState. cbn [ProxyState.state].
    destruct (JS.stringify_neq _ _), b; simpl; split; try done;
      try (intros l Hl; by apply elem_of_nil in Hl).
    intros l. unfold ProxyState.notifyListeners. by rewrite called_notify.
  - destruct path as [| q path].
    + cbn [ProxyState.step ProxyState.assign fst]. unfold ProxyState.handler_set.
      cbn [ProxyState.state].
      destruct (JS.stringify_neq _ _), b; simpl; split; try done;
        try (intros l Hl; by apply elem_of_nil in Hl).
      intros l. unfold ProxyState.notifyListeners. by rewrite called_notify.
    + cbn [ProxyState.step]. rewrite ProxyState_assign_nested.
      destruct (ProxyState.raw_assign _ _ _ _); simpl; split; try done;
        intros l Hl; by apply elem_of_nil in Hl.
Qed.

Lemma ProxyState_run_mutations cs m l :
  forallb ProxyState.is_mutation cs = true →
  l ∈ called (snd (ProxyState.run cs m)) → l ∈ ProxyState.listeners m.
Proof.
  revert m. induction cs as [| c cs IH]; intros m Hcs.
  - simpl. intros Hl. by apply elem_of_nil in Hl.
  - simpl in Hcs. apply andb_prop in Hcs as [Hc Hcs].
    destruct (ProxyState_step_mutation c m Hc) as [Hls Ht].
    rewrite ProxyState_run_cons. cbn [snd].
    rewrite (called_app (T:=ProxyState.T)), elem_of_app.
    intros [Hl | Hl]; [by apply Ht |]. rewrite <- Hls. by apply IH.
Qed.

(** A listener that is neither registered nor pending stays so, and is not
    called, under any call other than its own subscription. *)
Lemma ProxyState_step_not_called c m l :
  c ≠ ProxyState.Subscribe l →
  l ∉ ProxyState.listeners m →
  l ∉ ProxyState.pendingNotifications m →
  (l ∉ called (snd (ProxyState.step c m)))
  ∧ (l ∉ ProxyState.listeners (fst (ProxyState.step c m)))
  ∧ (l ∉ ProxyState.pendingNotifications (fst (ProxyState.step c m))).
Proof.
  intros Hc Hls Hp. destruct m as [s ls b p h]. simpl in Hls, Hp.
  assert (l ∉ JSSet.add_all ls p) as Hq.
  { rewrite JSSet_elem_of_add_all. tauto. }
  destruct c as [action | path prop value | x | x | |].
  - cbn [ProxyState.step]. unfold ProxyState.setState. cbn [ProxyState.state].
    destruct (JS.stringify_neq _ _), b; simpl;
      unfold ProxyState.notifyListeners; rewrite ?called_notify;
      repeat split; first [done | apply not_elem_of_nil].
  - destruct path as [| q path].
    + cbn [ProxyState.step ProxyState.assign fst]. unfold ProxyState.handler_set.
      cbn [ProxyState.state].
      destruct (JS.stringify_neq _ _), b; simpl;
        unfold ProxyState.notifyListeners; rewrite ?called_notify;
        repeat split; first [done | apply not_elem_of_nil].
    + cbn [ProxyState.step]. rewrite ProxyState_assign_nested.
      destruct (ProxyState.raw_assign _ _ _ _); simpl;
        repeat split; first [done | apply not_elem_of_nil].
  - simpl. repeat split; [apply not_elem_of_nil | | done].
    rewrite JSSet_elem_of_add. intros [-> | ?]; [by apply Hc | done].
  - simpl. repeat split; [apply not_elem_of_nil | | done].
    rewrite JSSet_elem_of_delete. tauto.
  - simpl. repeat split; first [done | apply not_elem_of_nil].
  - cbn [ProxyState.step]. rewrite ProxyState_endBatchUpdates_eq. simpl.
    rewrite called_notify. repeat split; first [done | apply not_elem_of_nil].
Qed.

Lemma ProxyState_run_not_called cs m l :
  ProxyState.Subscribe l ∉ cs →
  l ∉ ProxyState.listeners m →
  l ∉ ProxyState.pendingNotifications m →
  l ∉ called (snd (ProxyState.run cs m)).
Proof.
  revert m. induction cs as [| c cs IH]; intros m Hcs Hls Hp.
  - simpl. apply not_elem_of_nil.
  - apply not_elem_of_cons in Hcs as [Hc Hcs].
    destruct (ProxyState_step_not_called c m l) as (Ht & Hls1 & Hp1); [done.. |].
    rewrite ProxyState_run_cons. cbn [snd].
    rewrite (called_app (T:=ProxyState.T)), elem_of_app.
    intros [Hl | Hl]; [done |]. by apply (IH _ Hcs Hls1 Hp1).
Qed.

End ProxyStateMutations.

(** ** The singleton container *)

Section GlobalStateFacts.
Implicit Types (w : GlobalState.Process) (this : GlobalState.ref)
  (c : GlobalState.call) (cs : list GlobalState.call) (l : nat).

Lemma GlobalState_run_cons c cs this w :
  GlobalState.run (c :: cs) this w
  = (fst (GlobalState.run cs this (fst (GlobalState.step c this w))),
     snd (GlobalState.step c this w)
       ++ snd (GlobalState.run cs this (fst (GlobalState.step c this w)))).
Proof. reflexivity. Qed.

(** A call only calls listeners of its receiver, and the only listener it
    can add to them is the one it subscribes. *)
Lemma GlobalState_step_listeners c this w :
  (∀ l, l ∈ called (snd (GlobalState.step c this w)) →
        l ∈ GlobalState.listeners_of this w)
  ∧ (∀ l, l ∈ GlobalState.listeners_of this (fst (GlobalState.step c this w)) →
          l ∈ GlobalState.listeners_of this w ∨ c = GlobalState.Subscribe l).
Proof.
  unfold GlobalState.listeners_of.
  destruct c as [action | cb | cb]; cbn [GlobalState.step];
    unfold GlobalState.setState, GlobalState.subscribe, GlobalState.unsubscribe;
    destruct (GlobalState.heap w !! this) as [m |] eqn:Hm; cbn [fst snd];
    rewrite ?Hm; cbn [GlobalState.heap GlobalState.listeners];
    try (split; [intros l Hl; by apply elem_of_nil in Hl | by left]);
    try (apply lookup_lt_Some in Hm as Hlt;
         rewrite (list_lookup_insert_eq _ _ _ Hlt); cbn [GlobalState.listeners]).
  - split; [intros l; by rewrite called_notify | by left].
  - split; [intros l Hl; by apply elem_of_nil in Hl |].
    intros l [-> | Hl]%JSSet_elem_of_add; [by right | by left].
  - split; [intros l Hl; by apply elem_of_nil in Hl |].
    intros l [_ Hl]%JSSet_elem_of_delete. by left.
Qed.

Lemma GlobalState_run_called cs this w l :
  l ∈ called (snd (GlobalState.run cs this w)) →
  l ∈ GlobalState.listeners_of this w ∨ GlobalState.Subscribe l ∈ cs.
Proof.
  revert w. induction cs as [| c cs IH]; intros w.
  - simpl. intros Hl. by apply elem_of_nil in Hl.
  - destruct (GlobalState_step_listeners c this w) as [Ht Hls].
    rewrite GlobalState_run_cons. cbn [snd].
    rewrite (called_app (T:=GlobalState.T)), elem_of_app.
    intros [Hl | Hl]; [left; by apply Ht |].
    apply IH in Hl as [Hl | Hl]; [| right; by right].
    apply Hls in Hl as [Hl | ->]; [by left | right; by left].
Qed.

Lemma GlobalState_subscribe_closure l this w :
  snd (GlobalState.subscribe l this w) = GlobalState.unsubscribe l this.
Proof.
  unfold GlobalState.subscribe. by destruct (GlobalState.heap w !! this).
Qed.

Lemma GlobalState_listeners_of_unsubscribe l this w :
  GlobalState.listeners_of this (GlobalState.unsubscribe l this w)
  = JSSet.delete l (GlobalState.listeners_of this w).
Proof.
  unfold GlobalState.listeners_of, GlobalState.unsubscribe.
  destruct (GlobalState.heap w !! this) as [m |] eqn:Hm.
  - apply lookup_lt_Some in Hm as Hlt. cbn [GlobalState.heap].
    by rewrite (list_lookup_insert_eq _ _ _ Hlt).
  - by rewrite Hm.
Qed.

Lemma GlobalState_subscribe_unsubscribe l this w :
  l ∉ GlobalState.listeners_of this
        (snd (GlobalState.subscribe l this w) (fst (GlobalState.subscribe l this w))).
Proof.
  rewrite GlobalState_subscribe_closure, GlobalState_listeners_of_unsubscribe.
  apply JSSet_not_elem_of_delete.
Qed.

(** After a reset the static field denotes a new instance, which holds the
    given value or the default and has no listener. *)
Lemma GlobalState_resetInstance_fresh (x : JS.value) w :
  GlobalState.getInstance JS.Undefined (GlobalState.resetInstance x w)
  = (length (GlobalState.heap w), GlobalState.resetInstance x w)
  ∧ GlobalState.heap (GlobalState.resetInstance x w) !! length (GlobalState.heap w)
    = Some (GlobalState.new (JS.or x (JS.Obj []))).
Proof.
  split; [done |]. cbn [GlobalState.resetInstance GlobalState.heap].
  rewrite lookup_app_r by lia. by rewrite Nat.sub_diag.
Qed.

End GlobalStateFacts.

(** The example process is the one [getInstance] and [subscribe] produce. *)
Example Examples_global_process_reachable :
  (let '(r, w) := GlobalState.getInstance (JS.Obj [("theme", JS.Str "light")])
                    GlobalState.start in
   fst (GlobalState.subscribe 7 r w))
  = Examples.global_process.
Proof. reflexivity. Qed.

(** C7, as the specification states it, fails for a falsy argument:
    after [resetInstance(undefined)], and likewise after [resetInstance(0)],
    [getInstance().getState()] is the empty object and not the argument. *)
Lemma GlobalState_resetInstance_falsy_argument :
  GlobalState.getState
    (fst (GlobalState.getInstance JS.Undefined
            (GlobalState.resetInstance JS.Undefined GlobalState.start)))
    (GlobalState.resetInstance JS.Undefined GlobalState.start)
  = Some (JS.Obj [])
  ∧ JS.Obj [] ≠ JS.Undefined
  ∧ GlobalState.getState
      (fst (GlobalState.getInstance JS.Undefined
              (GlobalState.resetInstance (JS.Num 0) GlobalState.start)))
      (GlobalState.resetInstance (JS.Num 0) GlobalState.start)
    = Some (JS.Obj [])
  ∧ JS.Obj [] ≠ JS.Num 0.
Proof. repeat split; solve_concrete. Qed.

(** C7, amended.  After [resetInstance(x)], [getInstance()] returns the
    new instance and changes nothing; its [getState()] is [x] when [x] is
    truthy, and the empty object when no value is given ([x] is
    [undefined]); the new instance has no listener, so that whatever calls
    are then made on it, a listener is called only if it has been subscribed
    again after the reset: the listeners subscribed before the reset are
    never called. *)
Theorem GlobalState_resetInstance_seeds_and_discards :
  ∀ (w : GlobalState.Process) (x : JS.value),
    snd (GlobalState.getInstance JS.Undefined (GlobalState.resetInstance x w))
    = GlobalState.resetInstance x w
    ∧ (JS.truthy x = true →
       GlobalState.getState
         (fst (GlobalState.getInstance JS.Undefined (GlobalState.resetInstance x w)))
         (GlobalState.resetInstance x w)
       = Some x)
    ∧ GlobalState.getState
        (fst (GlobalState.getInstance JS.Undefined
                (GlobalState.resetInstance JS.Undefined w)))
        (GlobalState.resetInstance JS.Undefined w)
      = Some (JS.Obj [])
    ∧ GlobalState.listeners_of
        (fst (GlobalState.getInstance JS.Undefined (GlobalState.resetInstance x w)))
        (GlobalState.resetInstance x w)
      = []
    ∧ (∀ (cs : list GlobalState.call) (l : nat),
          l ∈ called
                (snd (GlobalState.run cs
                        (fst (GlobalState.getInstance JS.Undefined
                                (GlobalState.resetInstance x w)))
                        (GlobalState.resetInstance x w))) →
          GlobalState.Subscribe l ∈ cs).
Proof.
  intros w x.
  destruct (GlobalState_resetInstance_fresh x w) as [Hget Hlook].
  destruct (GlobalState_resetInstance_fresh JS.Undefined w) as [Hget' Hlook'].
  rewrite Hget, Hget'. cbn [fst snd].
  assert (GlobalState.listeners_of (length (GlobalState.heap w))
            (GlobalState.resetInstance x w) = []) as Hnone.
  { unfold GlobalState.listeners_of, GlobalState.ref. by rewrite Hlook. }
  split; [done |]. split; [| split; [| split; [done |]]].
  - intros Hx. unfold GlobalState.getState, GlobalState.ref. rewrite Hlook. simpl.
    unfold JS.or. by rewrite Hx.
  - unfold GlobalState.getState, GlobalState.ref. by rewrite Hlook'.
  - intros cs l Hl. apply GlobalState_run_called in Hl as [Hl | Hl]; [| done].
    rewrite Hnone in Hl. by apply elem_of_nil in Hl.
Qed.

(** Resetting the example process to [{count: 0}]: the new instance holds
    [{count: 0}], and listener [7] of the old instance is called by no
    call on the new one unless it subscribes again. *)
Lemma GlobalState_resetInstance_seeds_and_discards_witness :
  GlobalState.getState 1
    (GlobalState.resetInstance (JS.Obj (Examples.count 0)) Examples.global_process)
  = Some (JS.Obj (Examples.count 0))
  ∧ (∀ (cs : list GlobalState.call) (l : nat),
        l ∈ called
              (snd (GlobalState.run cs 1
                      (GlobalState.resetInstance (JS.Obj (Examples.count 0))
                         Examples.global_process))) →
        GlobalState.Subscribe l ∈ cs).
Proof.
  split.
  - apply (proj1 (proj2 (GlobalState_resetInstance_seeds_and_discards
                           Examples.global_process (JS.Obj (Examples.count 0))))).
    reflexivity.
  - exact (proj2 (proj2 (proj2 (proj2
             (GlobalState_resetInstance_seeds_and_discards
                Examples.global_process (JS.Obj (Examples.count 0))))))).
Defined.

(** After the reset a [setState] on the new instance calls nobody, while the
    old instance still has its listener. *)
Example GlobalState_reset_run :
  GlobalState.setState (Value (JS.Obj (Examples.count 1))) 1
    (GlobalState.resetInstance (JS.Obj (Examples.count 0)) Examples.global_process)
  = ({| GlobalState.instance := Some 1;
        GlobalState.heap :=
          [{| GlobalState.currentState := JS.Obj [("theme", JS.Str "light")];
              GlobalState.listeners := [7] |};
           {| GlobalState.currentState := JS.Obj (Examples.count 1);
              GlobalState.listeners := [] |}] |},
     []).
Proof. reflexivity. Qed.

(** ** Subscribing and unsubscribing at once *)

(** C9.  For each of the three containers: after [subscribe(l)] and an
    immediate call of the closure it returned, no sequence of state
    mutations ([setState] calls, and for the change-aware container also
    assignments to the state) ever calls [l].  For the change-aware
    container the same holds of any sequence of calls, batches and flushes
    included, in which [l] is not subscribed again, provided [l] was not
    already waiting in the pending set of an open batch. *)
Theorem subscribe_then_unsubscribe_never_called :
  (∀ (T : Type) (m : ComponentState.ComponentStateManager T) (l : Listener)
     (actions : list (SetStateAction T)),
      l ∉ snd (ComponentState.setStates actions
                 (snd (ComponentState.subscribe l m)
                    (fst (ComponentState.subscribe l m)))))
  ∧ (∀ (m : ProxyState.ProxyStateManager) (l : ListenerG ProxyState.T)
       (cs : list ProxyState.call),
        forallb ProxyState.is_mutation cs = true →
        l ∉ called (snd (ProxyState.run cs
                           (snd (ProxyState.subscribe l m)
                              (fst (ProxyState.subscribe l m))))))
  ∧ (∀ (m : ProxyState.ProxyStateManager) (l : ListenerG ProxyState.T)
       (cs : list ProxyState.call),
        ProxyState.Subscribe l ∉ cs →
        l ∉ ProxyState.pendingNotifications m →
        l ∉ called (snd (ProxyState.run cs
                           (snd (ProxyState.subscribe l m)
                              (fst (ProxyState.subscribe l m))))))
  ∧ (∀ (w : GlobalState.Process) (this : GlobalState.ref)
       (l : ListenerG GlobalState.T) (actions : list (SetStateAction GlobalState.T)),
        l ∉ called (snd (GlobalState.run (map GlobalState.SetState actions) this
                           (snd (GlobalState.subscribe l this w)
                              (fst (GlobalState.subscribe l this w)))))).
Proof.
  split; [| split; [| split]].
  - intros T m l actions Hl.
    apply ComponentState_setStates_trace in Hl.
    by apply ComponentState_subscribe_unsubscribe in Hl.
  - intros m l cs Hcs Hl.
    apply ProxyState_run_mutations in Hl; [| done].
    simpl in Hl. by apply JSSet_not_elem_of_delete in Hl.
  - intros m l cs Hcs Hp. apply ProxyState_run_not_called; [done | | done].
    simpl. apply JSSet_not_elem_of_delete.
  - intros w this l actions Hl.
    apply GlobalState_run_called in Hl as [Hl | Hl].
    + by apply GlobalState_subscribe_unsubscribe in Hl.
    + apply list_elem_of_In, in_map_iff in Hl as (a & Ha & _). discriminate Ha.
Qed.

(** Listener [1] of each example container subscribes, unsubscribes, and is
    not called by the mutations that follow. *)
Lemma subscribe_then_unsubscribe_never_called_witness :
  (1 ∉ snd (ComponentState.setStates [Value 5%Z; Updater (λ s, s + 1)%Z]
              (snd (ComponentState.subscribe 1 Examples.component_two)
                 (fst (ComponentState.subscribe 1 Examples.component_two)))))
  ∧ (1 ∉ called
           (snd (ProxyState.run
                   [ProxyState.SetState (Value (Examples.count 7));
                    ProxyState.Assign [] "count" (JS.Num 8)]
                   (snd (ProxyState.subscribe 1 Examples.proxy_count0)
                      (fst (ProxyState.subscribe 1 Examples.proxy_count0))))))
  ∧ (1 ∉ called
           (snd (ProxyState.run
                   [ProxyState.BeginBatchUpdates;
                    ProxyState.SetState (Value (Examples.count 7));
                    ProxyState.EndBatchUpdates]
                   (snd (ProxyState.subscribe 1 Examples.proxy_count0)
                      (fst (ProxyState.subscribe 1 Examples.proxy_count0))))))
  ∧ (7 ∉ called
           (snd (GlobalState.run
                   (map GlobalState.SetState [Value (JS.Num 3); Value JS.Null]) 0
                   (snd (GlobalState.subscribe 7 0 Examples.global_process)
                      (fst (GlobalState.subscribe 7 0 Examples.global_process)))))).
Proof.
  split; [| split; [| split]].
  - exact (proj1 subscribe_then_unsubscribe_never_called Z
             Examples.component_two 1 [Value 5%Z; Updater (λ s, s + 1)%Z]).
  - exact (proj1 (proj2 subscribe_then_unsubscribe_never_called)
             Examples.proxy_count0 1
             [ProxyState.SetState (Value (Examples.count 7));
              ProxyState.Assign [] "count" (JS.Num 8)] eq_refl).
  - apply (proj1 (proj2 (proj2 subscribe_then_unsubscribe_never_called))
             Examples.proxy_count0 1
             [ProxyState.BeginBatchUpdates;
              ProxyState.SetState (Value (Examples.count 7));
              ProxyState.EndBatchUpdates]).
    + intros H. repeat (apply elem_of_cons in H as [H | H]; [discriminate H |]).
      by apply elem_of_nil in H.
    + apply not_elem_of_nil.
  - exact (proj2 (proj2 (proj2 subscribe_then_unsubscribe_never_called))
             Examples.global_process 0 7 [Value (JS.Num 3); Value JS.Null]).
Defined.

(** The runs of the witness: the remaining listener [2] is called, [1] is
    not. *)
Example subscribe_then_unsubscribe_runs :
  snd (ComponentState.setStates [Value 5%Z; Updater (λ s, s + 1)%Z]
         (snd (ComponentState.subscribe 1 Examples.component_two)
            (fst (ComponentState.subscribe 1 Examples.component_two))))
  = [2; 2]
  ∧ snd (ProxyState.run
           [ProxyState.SetState (Value (Examples.count 7));
            ProxyState.Assign [] "count" (JS.Num 8)]
           (snd (ProxyState.subscribe 1 Examples.proxy_count0)
              (fst (ProxyState.subscribe 1 Examples.proxy_count0))))
    = [(2, Examples.count 7); (2, Examples.count 8)].
Proof. split; reflexivity. Qed.

(** * Further properties of the code *)

(** ** Objects *)

Lemma JS_get_set_eq (o : JS.object) (p : string) (v : JS.value) :
  JS.get (JS.set o p v) p = v.
Proof.
  induction o as [| [k w] o IH]; simpl.
  - by rewrite String.eqb_refl.
  - destruct (String.eqb k p) eqn:E; simpl; by rewrite E.
Qed.

Lemma JS_get_set_ne (o : JS.object) (p q : string) (v : JS.value) :
  p ≠ q → JS.get (JS.set o p v) q = JS.get o q.
Proof.
  intros Hne. induction o as [| [k w] o IH]; simpl.
  - destruct (String.eqb_spec p q); [done | reflexivity].
  - destruct (String.eqb_spec k p) as [-> | Hkp]; simpl.
    + destruct (String.eqb_spec p q); [done | reflexivity].
    + destruct (String.eqb_spec k q); [reflexivity | apply IH].
Qed.

(** ** More on the change-aware container *)

(** X1.  The constructor of the change-aware container returns, for an
    object, a manager that holds it, has no listener, is outside a batch and
    has nothing pending; for every other value, [null] included, it throws
    the "can only manage state of type 'object'" error. *)
Theorem ProxyState_new_objects_only :
  ∀ v : JS.value,
    (∀ o, v = JS.Obj o →
          ProxyState.new v
          = Ok {| ProxyState.state := o;
                  ProxyState.listeners := [];
                  ProxyState.isBatchingUpdates := false;
                  ProxyState.pendingNotifications := [];
                  ProxyState.hasStateChanged := false |})
    ∧ ((∀ o, v ≠ JS.Obj o) →
       ProxyState.new v
       = Throw "ProxyStateManager can only manage state of type 'object'.").
Proof.
  intros v. split.
  - intros o ->. reflexivity.
  - intros Hv. destruct v; try reflexivity. by destruct (Hv props).
Qed.

(** X2.  In every manager reached from the constructor by any sequence of
    calls, no listener is registered or pending twice, nothing is pending
    outside a batch, and an [endBatchUpdates()] made outside a batch calls
    nobody and changes nothing. *)
Theorem ProxyState_reachable_well_formed :
  ∀ (initialState : JS.value) (m0 : ProxyState.ProxyStateManager)
    (cs : list ProxyState.call),
    ProxyState.new initialState = Ok m0 →
    NoDup (ProxyState.listeners (fst (ProxyState.run cs m0)))
    ∧ NoDup (ProxyState.pendingNotifications (fst (ProxyState.run cs m0)))
    ∧ (ProxyState.isBatchingUpdates (fst (ProxyState.run cs m0)) = false →
       ProxyState.pendingNotifications (fst (ProxyState.run cs m0)) = []
       ∧ ProxyState.endBatchUpdates (fst (ProxyState.run cs m0))
         = (fst (ProxyState.run cs m0), [])).
Proof.
  intros initialState m0 cs Hnew.
  destruct (ProxyState_reachable_invariant initialState m0 cs Hnew) as [[H1 H2] Hidle].
  split; [done |]. split; [done |]. intros Hb.
  pose proof (Hidle Hb) as Hp. split; [done |].
  rewrite ProxyState_endBatchUpdates_eq, Hp.
  destruct (fst (ProxyState.run cs m0)) as [s ls b p h]. simpl in *. by subst.
Qed.

Lemma ProxyState_reachable_well_formed_witness :
  NoDup (ProxyState.listeners
           (fst (ProxyState.run
                   (ProxyState.Subscribe 1 :: ProxyState.Subscribe 1
                      :: ProxyState.BeginBatchUpdates :: Examples.batch_calls
                      ++ [ProxyState.EndBatchUpdates])
                   (ProxyState.with_listeners [] Examples.proxy_count0))))
  ∧ NoDup (ProxyState.pendingNotifications
             (fst (ProxyState.run
                     (ProxyState.Subscribe 1 :: ProxyState.Subscribe 1
                        :: ProxyState.BeginBatchUpdates :: Examples.batch_calls
                        ++ [ProxyState.EndBatchUpdates])
                     (ProxyState.with_listeners [] Examples.proxy_count0))))
  ∧ (ProxyState.isBatchingUpdates
       (fst (ProxyState.run
               (ProxyState.Subscribe 1 :: ProxyState.Subscribe 1
                  :: ProxyState.BeginBatchUpdates :: Examples.batch_calls
                  ++ [ProxyState.EndBatchUpdates])
               (ProxyState.with_listeners [] Examples.proxy_count0))) = false →
     ProxyState.pendingNotifications
       (fst (ProxyState.run
               (ProxyState.Subscribe 1 :: ProxyState.Subscribe 1
                  :: ProxyState.BeginBatchUpdates :: Examples.batch_calls
                  ++ [ProxyState.EndBatchUpdates])
               (ProxyState.with_listeners [] Examples.proxy_count0))) = []
     ∧ ProxyState.endBatchUpdates
         (fst (ProxyState.run
                 (ProxyState.Subscribe 1 :: ProxyState.Subscribe 1
                    :: ProxyState.BeginBatchUpdates :: Examples.batch_calls
                    ++ [ProxyState.EndBatchUpdates])
                 (ProxyState.with_listeners [] Examples.proxy_count0)))
       = (fst (ProxyState.run
                 (ProxyState.Subscribe 1 :: ProxyState.Subscribe 1
                    :: ProxyState.BeginBatchUpdates :: Examples.batch_calls
                    ++ [ProxyState.EndBatchUpdates])
                 (ProxyState.with_listeners [] Examples.proxy_count0)), [])).
Proof.
  apply (ProxyState_reachable_well_formed (JS.Obj (Examples.count 0))
           (ProxyState.with_listeners [] Examples.proxy_count0)).
  reflexivity.
Defined.

Section ProxyStateMore.
Implicit Types (m : ProxyState.ProxyStateManager) (c : ProxyState.call)
  (cs : list ProxyState.call) (l : nat).

Lemma ProxyState_step_while_batching c m :
  ProxyState.isBatchingUpdates m = true →
  c ≠ ProxyState.EndBatchUpdates →
  snd (ProxyState.step c m) = []
  ∧ ProxyState.isBatchingUpdates (fst (ProxyState.step c m)) = true.
Proof.
  intros Hb Hc.
  destruct (ProxyState.within_batch c) eqn:Hw.
  - by destruct (ProxyState_step_in_batch c m Hb Hw) as (? & ? & _).
  - destruct c; try discriminate Hw; done.
Qed.

Lemma calls_app_trace {T : Type} l (t1 t2 : list (nat * T)) :
  calls l (t1 ++ t2) = calls l t1 + calls l t2.
Proof. unfold calls. by rewrite filter_app, length_app. Qed.

End ProxyStateMore.

(** X3.  Once a batch is open, no call other than [endBatchUpdates()] calls
    a listener, and the batch stays open: whatever mutations,
    subscriptions or further [beginBatchUpdates()] are made, the trace is
    empty. *)
Theorem ProxyState_silent_while_batching :
  ∀ (m : ProxyState.ProxyStateManager) (cs : list ProxyState.call),
    ProxyState.isBatchingUpdates m = true →
    ProxyState.EndBatchUpdates ∉ cs →
    snd (ProxyState.run cs m) = []
    ∧ ProxyState.isBatchingUpdates (fst (ProxyState.run cs m)) = true.
Proof.
  intros m cs. revert m. induction cs as [| c cs IH]; intros m Hb Hcs; [done |].
  apply not_elem_of_cons in Hcs as [Hc Hcs].
  destruct (ProxyState_step_while_batching c m Hb) as [Ht Hb1]; [congruence |].
  destruct (IH _ Hb1 Hcs) as [IHt IHb].
  rewrite ProxyState_run_cons. cbn [fst snd]. by rewrite Ht, IHt.
Qed.

Lemma ProxyState_silent_while_batching_witness :
  snd (ProxyState.run
         (ProxyState.BeginBatchUpdates :: Examples.batch_calls)
         (ProxyState.beginBatchUpdates Examples.proxy_count0)) = []
  ∧ ProxyState.isBatchingUpdates
      (fst (ProxyState.run
              (ProxyState.BeginBatchUpdates :: Examples.batch_calls)
              (ProxyState.beginBatchUpdates Examples.proxy_count0))) = true.
Proof.
  apply (ProxyState_silent_while_batching
           (ProxyState.beginBatchUpdates Examples.proxy_count0)
           (ProxyState.BeginBatchUpdates :: Examples.batch_calls)).
  - reflexivity.
  - intros H. repeat (apply elem_of_cons in H as [H | H]; [discriminate H |]).
    by apply elem_of_nil in H.
Defined.

(** X4.  Batches do not nest: a second [beginBatchUpdates()] changes
    nothing, a single [endBatchUpdates()] always leaves the batching mode
    with nothing pending, and an [endBatchUpdates()] that follows it calls
    nobody and changes nothing. *)
Theorem ProxyState_batches_are_flat :
  ∀ m : ProxyState.ProxyStateManager,
    ProxyState.beginBatchUpdates (ProxyState.beginBatchUpdates m)
    = ProxyState.beginBatchUpdates m
    ∧ ProxyState.isBatchingUpdates (fst (ProxyState.endBatchUpdates m)) = false
    ∧ ProxyState.pendingNotifications (fst (ProxyState.endBatchUpdates m)) = []
    ∧ ProxyState.endBatchUpdates (fst (ProxyState.endBatchUpdates m))
      = (fst (ProxyState.endBatchUpdates m), []).
Proof.
  intros m. rewrite !ProxyState_endBatchUpdates_eq. cbn [fst].
  by destruct m.
Qed.

(** X5.  After [setState(action)], in or outside a batch, the stored state
    serializes as the state the action asked for (it is that state when the
    serialization changed, and the old, equally serialized one otherwise),
    and the listeners are those registered before. *)
Theorem ProxyState_setState_stores_requested_state :
  ∀ (m : ProxyState.ProxyStateManager) (action : SetStateAction ProxyState.T),
    JS.JSON_stringify (JS.Obj (ProxyState.getState (fst (ProxyState.setState action m))))
    = JS.JSON_stringify (JS.Obj (resolve action (ProxyState.state m)))
    ∧ ProxyState.listeners (fst (ProxyState.setState action m))
      = ProxyState.listeners m
    ∧ ProxyState.isBatchingUpdates (fst (ProxyState.setState action m))
      = ProxyState.isBatchingUpdates m.
Proof.
  intros m action.
  destruct (decide (JS.JSON_stringify (JS.Obj (resolve action (ProxyState.state m)))
                    = JS.JSON_stringify (JS.Obj (ProxyState.state m)))) as [Heq | Hne].
  - by rewrite (ProxyState_setState_same _ _ Heq).
  - rewrite (ProxyState_setState_differ _ _ Hne).
    by destruct m as [s ls [] p h].
Qed.

(** X6.  A top-level assignment [getState()[prop] = value] always lands,
    whether or not it notifies and whether or not a batch is open: reading
    [prop] back gives [value], every other property reads as before, and
    the registered listeners are unchanged. *)
Theorem ProxyState_assignment_always_lands :
  ∀ (m : ProxyState.ProxyStateManager) (prop : string) (value : JS.value),
    JS.get (ProxyState.getState (fst (fst (ProxyState.assign [] prop value m)))) prop
    = value
    ∧ (∀ q, prop ≠ q →
            JS.get (ProxyState.getState
                      (fst (fst (ProxyState.assign [] prop value m)))) q
            = JS.get (ProxyState.state m) q)
    ∧ ProxyState.listeners (fst (fst (ProxyState.assign [] prop value m)))
      = ProxyState.listeners m.
Proof.
  intros m prop value. cbn [ProxyState.assign fst].
  assert (ProxyState.state (fst (ProxyState.handler_set prop value m))
          = JS.set (ProxyState.state m) prop value
          ∧ ProxyState.listeners (fst (ProxyState.handler_set prop value m))
            = ProxyState.listeners m) as [Hs Hl].
  { destruct (decide (JS.JSON_stringify (JS.get (ProxyState.state m) prop)
                      = JS.JSON_stringify value)) as [Heq | Hne].
    - by rewrite (ProxyState_handler_set_same _ _ _ Heq).
    - rewrite (ProxyState_handler_set_differ _ _ _ Hne).
      by destruct m as [s ls [] p h]. }
  unfold ProxyState.getState. rewrite Hs. split; [apply JS_get_set_eq |].
  split; [| done]. intros q Hq. by apply JS_get_set_ne.
Qed.

(** X7.  Outside a batch, a listener that stays subscribed through a
    sequence of [setState] calls is called once for each call that changes
    the serialized state, and for no other. *)
Theorem ProxyState_calls_count_changing_sets :
  ∀ (m : ProxyState.ProxyStateManager) (l : ListenerG ProxyState.T)
    (actions : list (SetStateAction ProxyState.T)),
    ProxyState.isBatchingUpdates m = false →
    NoDup (ProxyState.listeners m) →
    l ∈ ProxyState.listeners m →
    calls l (snd (ProxyState.run (map ProxyState.SetState actions) m))
    = changing_sets actions (ProxyState.state m).
Proof.
  intros m l actions. revert m.
  induction actions as [| a actions IH]; intros m Hb Hnd Hl; [done |].
  cbn [map]. rewrite ProxyState_run_cons. cbn [snd fst ProxyState.step changing_sets].
  rewrite (calls_app_trace (T:=ProxyState.T)).
  destruct (JS.stringify_neq (JS.Obj (ProxyState.state m))
              (JS.Obj (resolve a (ProxyState.state m)))) eqn:Hneq.
  - apply JS_stringify_neq_true in Hneq.
    rewrite ProxyState_setState_differ by congruence. rewrite Hb. cbn [fst snd].
    rewrite calls_notify_elem by done. rewrite IH by done. done.
  - apply JS_stringify_neq_false in Hneq.
    rewrite ProxyState_setState_same by congruence. cbn [fst snd].
    by rewrite IH.
Qed.

Lemma ProxyState_calls_count_changing_sets_witness :
  calls 2 (snd (ProxyState.run
                  (map ProxyState.SetState
                     [Updater Examples.increment; Value (Examples.count 1);
                      Updater Examples.increment])
                  Examples.proxy_count0))
  = changing_sets
      [Updater Examples.increment; Value (Examples.count 1);
       Updater Examples.increment] (Examples.count 0).
Proof.
  apply (ProxyState_calls_count_changing_sets Examples.proxy_count0 2
           [Updater Examples.increment; Value (Examples.count 1);
            Updater Examples.increment]); solve_concrete.
Defined.

Example ProxyState_calls_count_run :
  changing_sets
    [Updater Examples.increment; Value (Examples.count 1);
     Updater Examples.increment] (Examples.count 0) = 2.
Proof. reflexivity. Qed.

(** ** More on the singleton container *)

Section GlobalStateMore.
Implicit Types (w : GlobalState.Process) (this r : GlobalState.ref)
  (c : GlobalState.call) (l : nat).

Lemma GlobalState_step_length c this w :
  length (GlobalState.heap (fst (GlobalState.step c this w)))
  = length (GlobalState.heap w)
  ∧ GlobalState.instance (fst (GlobalState.step c this w)) = GlobalState.instance w.
Proof.
  destruct c as [action | cb | cb]; cbn [GlobalState.step];
    unfold GlobalState.setState, GlobalState.subscribe, GlobalState.unsubscribe;
    destruct (GlobalState.heap w !! this) as [m |] eqn:Hm; cbn [fst snd];
    rewrite ?Hm; cbn [GlobalState.heap GlobalState.instance];
    by rewrite ?length_insert.
Qed.

Lemma global_wf_step (p : process_call) w : global_wf w → global_wf (process_step p w).
Proof.
  unfold global_wf. intros Hwf. destruct p as [a | a | this c]; simpl.
  - unfold GlobalState.getInstance.
    destruct (GlobalState.instance w) as [r0 |] eqn:Hi; simpl.
    + intros r Hr. apply Hwf. congruence.
    + intros r [= <-]. rewrite length_app. simpl. lia.
  - intros r [= <-]. rewrite length_app. simpl. lia.
  - destruct (GlobalState_step_length c this w) as [-> ->]. done.
Qed.

Lemma global_wf_run (ps : list process_call) w :
  global_wf w → global_wf (process_run ps w).
Proof.
  unfold process_run. revert w.
  induction ps as [| p ps IH]; intros w Hwf; simpl; [done |].
  by apply IH, global_wf_step.
Qed.

(** What one [setState] does to its receiver. *)
Lemma GlobalState_setState_on this w (m : GlobalState.GlobalStateManager)
  (action : SetStateAction GlobalState.T) :
  GlobalState.heap w !! this = Some m →
  GlobalState.heap (fst (GlobalState.setState action this w)) !! this
  = Some {| GlobalState.currentState := resolve action (GlobalState.currentState m);
            GlobalState.listeners := GlobalState.listeners m |}
  ∧ snd (GlobalState.setState action this w)
    = map (λ listener, (listener, resolve action (GlobalState.currentState m)))
        (GlobalState.listeners m).
Proof.
  intros Hm. unfold GlobalState.setState, GlobalState.ref in *. rewrite Hm.
  cbn [fst snd GlobalState.heap GlobalState.listeners GlobalState.currentState].
  apply lookup_lt_Some in Hm. by rewrite list_lookup_insert_eq.
Qed.

End GlobalStateMore.

(** X8.  [getInstance] is a lazy singleton: when no instance exists it
    creates one that holds the given value if truthy, the empty object
    otherwise, and has no listener; a call that follows another returns the
    same instance and leaves the process as it is, whatever its argument. *)
Theorem GlobalState_getInstance_lazy_singleton :
  ∀ (w : GlobalState.Process) (a b : JS.value),
    GlobalState.getInstance b (snd (GlobalState.getInstance a w))
    = GlobalState.getInstance a w
    ∧ (GlobalState.instance w = None →
       GlobalState.getState (fst (GlobalState.getInstance a w))
         (snd (GlobalState.getInstance a w))
       = Some (if JS.truthy a then a else JS.Obj [])
       ∧ GlobalState.listeners_of (fst (GlobalState.getInstance a w))
           (snd (GlobalState.getInstance a w)) = []).
Proof.
  intros w a b. unfold GlobalState.getInstance.
  destruct (GlobalState.instance w) as [r |] eqn:Hi; cbn [fst snd].
  - rewrite Hi. split; [done | intros [=]].
  - cbn [GlobalState.instance]. split; [done |]. intros _.
    unfold GlobalState.getState, GlobalState.listeners_of, GlobalState.ref.
    cbn [GlobalState.heap]. rewrite lookup_app_r by lia.
    rewrite Nat.sub_diag. done.
Qed.

(** X9.  Whatever a program has done with the class ([getInstance],
    [resetInstance], calls on instances, in any order from the start of the
    process), the reference [getInstance()] returns denotes a live
    instance: its [getState()] is defined. *)
Theorem GlobalState_getInstance_always_live :
  ∀ (ps : list process_call) (a : JS.value),
    is_Some
      (GlobalState.getState
         (fst (GlobalState.getInstance a (process_run ps GlobalState.start)))
         (snd (GlobalState.getInstance a (process_run ps GlobalState.start)))).
Proof.
  intros ps a.
  assert (global_wf (process_run ps GlobalState.start)) as Hwf.
  { apply global_wf_run. intros r [=]. }
  set (w := process_run ps GlobalState.start) in *.
  unfold GlobalState.getInstance.
  destruct (GlobalState.instance w) as [r |] eqn:Hi; cbn [fst snd].
  - unfold GlobalState.getState. apply fmap_is_Some, lookup_lt_is_Some.
    by apply Hwf.
  - unfold GlobalState.getState, GlobalState.ref. cbn [GlobalState.heap].
    rewrite lookup_app_r by lia. rewrite Nat.sub_diag. by eexists.
Qed.

(** X10.  Singleton container: after any sequence of [setState] calls on
    an instance, [getState] returns the fold of the actions over the value
    the instance held, and every call notifies unconditionally: a
    registered listener is called once per [setState], changed value or
    not. *)
Theorem GlobalState_setStates_fold_and_notify :
  ∀ (actions : list (SetStateAction GlobalState.T)) (w : GlobalState.Process)
    (this : GlobalState.ref) (m : GlobalState.GlobalStateManager) (l : nat),
    GlobalState.heap w !! this = Some m →
    GlobalState.getState this
      (fst (GlobalState.run (map GlobalState.SetState actions) this w))
    = Some (ComponentState.fold_actions actions (GlobalState.currentState m))
    ∧ (NoDup (GlobalState.listeners m) → l ∈ GlobalState.listeners m →
       calls l (snd (GlobalState.run (map GlobalState.SetState actions) this w))
       = length actions).
Proof.
  induction actions as [| a actions IH]; intros w this m l Hm.
  - simpl. unfold GlobalState.getState, GlobalState.ref in *. by rewrite Hm.
  - cbn [map]. rewrite GlobalState_run_cons. cbn [fst snd GlobalState.step].
    destruct (GlobalState_setState_on this w m a Hm) as [Hm1 Ht].
    destruct (IH _ this _ l Hm1) as [IHs IHc].
    split.
    + rewrite IHs. cbn [GlobalState.currentState].
      unfold ComponentState.fold_actions. simpl. by destruct a.
    + intros Hnd Hl. rewrite (calls_app_trace (T:=GlobalState.T)), Ht.
      rewrite calls_notify_elem by done. rewrite IHc by done. done.
Qed.

Lemma GlobalState_setStates_fold_and_notify_witness :
  GlobalState.getState 0
    (fst (GlobalState.run
            (map GlobalState.SetState
               [Value (JS.Num 1); Value (JS.Num 1); Updater (λ v, JS.Obj [("was", v)])])
            0 Examples.global_process))
  = Some (ComponentState.fold_actions
            [Value (JS.Num 1); Value (JS.Num 1); Updater (λ v, JS.Obj [("was", v)])]
            (JS.Obj [("theme", JS.Str "light")]))
  ∧ (NoDup [7] → 7 ∈ [7] →
     calls 7 (snd (GlobalState.run
                     (map GlobalState.SetState
                        [Value (JS.Num 1); Value (JS.Num 1);
                         Updater (λ v, JS.Obj [("was", v)])])
                     0 Examples.global_process))
     = 3).
Proof.
  apply (GlobalState_setStates_fold_and_notify
           [Value (JS.Num 1); Value (JS.Num 1); Updater (λ v, JS.Obj [("was", v)])]
           Examples.global_process 0
           {| GlobalState.currentState := JS.Obj [("theme", JS.Str "light")];
              GlobalState.listeners := [7] |} 7).
  reflexivity.
Defined.

(** X11.  [resetInstance] touches no existing instance: a program that
    still holds the old instance reads the same state from it, its
    listeners are registered as before and are still called by a [setState]
    on it, and the instance [getInstance()] now returns is another one. *)
Theorem GlobalState_resetInstance_keeps_old_instances :
  ∀ (w : GlobalState.Process) (x : JS.value) (r : GlobalState.ref)
    (m : GlobalState.GlobalStateManager),
    GlobalState.heap w !! r = Some m →
    GlobalState.getState r (GlobalState.resetInstance x w)
    = Some (GlobalState.currentState m)
    ∧ GlobalState.listeners_of r (GlobalState.resetInstance x w)
      = GlobalState.listeners m
    ∧ (∀ action, snd (GlobalState.setState action r (GlobalState.resetInstance x w))
                 = map (λ listener,
                          (listener, resolve action (GlobalState.currentState m)))
                     (GlobalState.listeners m))
    ∧ fst (GlobalState.getInstance JS.Undefined (GlobalState.resetInstance x w)) ≠ r.
Proof.
  intros w x r m Hm.
  assert (GlobalState.heap (GlobalState.resetInstance x w) !! r = Some m) as Hm'.
  { cbn [GlobalState.resetInstance GlobalState.heap]. by apply lookup_app_l_Some. }
  split; [| split; [| split]].
  - unfold GlobalState.getState, GlobalState.ref in *. by rewrite Hm'.
  - unfold GlobalState.listeners_of, GlobalState.ref in *. by rewrite Hm'.
  - intros action. by destruct (GlobalState_setState_on r _ m action Hm').
  - cbn [GlobalState.getInstance GlobalState.resetInstance GlobalState.instance fst].
    apply lookup_lt_Some in Hm. lia.
Qed.

Lemma GlobalState_resetInstance_keeps_old_instances_witness :
  GlobalState.getState 0 (GlobalState.resetInstance JS.Null Examples.global_process)
  = Some (JS.Obj [("theme", JS.Str "light")])
  ∧ GlobalState.listeners_of 0
      (GlobalState.resetInstance JS.Null Examples.global_process) = [7]
  ∧ (∀ action,
        snd (GlobalState.setState action 0
               (GlobalState.resetInstance JS.Null Examples.global_process))
        = map (λ listener,
                 (listener, resolve action (JS.Obj [("theme", JS.Str "light")])))
            [7])
  ∧ fst (GlobalState.getInstance JS.Undefined
           (GlobalState.resetInstance JS.Null Examples.global_process)) ≠ 0.
Proof.
  apply (GlobalState_resetInstance_keeps_old_instances Examples.global_process
           JS.Null 0
           {| GlobalState.currentState := JS.Obj [("theme", JS.Str "light")];
              GlobalState.listeners := [7] |}).
  reflexivity.
Defined.

(** ** More on the plain container *)

Section ComponentStateMore.
Context {T : Type}.
Implicit Types (m : ComponentState.ComponentStateManager T) (l : Listener).

Lemma occurrences_app l (t1 t2 : list Listener) :
  occurrences l (t1 ++ t2) = occurrences l t1 + occurrences l t2.
Proof. unfold occurrences. by rewrite filter_app, length_app. Qed.

Lemma occurrences_not_elem l (ls : list Listener) :
  l ∉ ls → occurrences l ls = 0.
Proof.
  unfold occurrences. induction ls as [| x ls IH]; intros Hl; [done |].
  apply not_elem_of_cons in Hl as [Hx Hl].
  rewrite filter_cons_False by congruence. by apply IH.
Qed.

Lemma occurrences_elem l (ls : list Listener) :
  NoDup ls → l ∈ ls → occurrences l ls = 1.
Proof.
  unfold occurrences. induction 1 as [| x ls Hx Hnd IH]; intros Hl.
  - by apply elem_of_nil in Hl.
  - destruct (decide (x = l)) as [-> | Hne].
    + rewrite filter_cons_True by done. simpl. f_equal.
      by apply (occurrences_not_elem l ls).
    + rewrite filter_cons_False by done. apply IH.
      apply elem_of_cons in Hl as [-> | ?]; done.
Qed.

End ComponentStateMore.

(** X12.  Plain container: every [setState] notifies unconditionally.
    Over any sequence of [setState] calls, a registered listener is called
    exactly once per call, whether or not the value changes, and a listener
    that is not registered is never called. *)
Theorem ComponentState_one_call_per_setState :
  ∀ (T : Type) (actions : list (SetStateAction T))
    (m : ComponentState.ComponentStateManager T) (l : Listener),
    NoDup (ComponentState.listeners m) →
    occurrences l (snd (ComponentState.setStates actions m))
    = if decide (l ∈ ComponentState.listeners m) then length actions else 0.
Proof.
  intros T actions. induction actions as [| a actions IH]; intros m l Hnd.
  - simpl. by case_decide.
  - rewrite ComponentState_setStates_cons. cbn [snd].
    rewrite occurrences_app, ComponentState_setState_trace.
    rewrite IH by done. cbn [ComponentState.setState fst ComponentState.listeners].
    case_decide as Hl.
    + by rewrite occurrences_elem.
    + by rewrite occurrences_not_elem.
Qed.

Lemma ComponentState_one_call_per_setState_witness :
  occurrences 2
    (snd (ComponentState.setStates [Value 0%Z; Value 0%Z; Updater (λ s, s + 1)%Z]
            Examples.component_two))
  = if decide (2 ∈ [1; 2]) then 3 else 0.
Proof.
  apply (ComponentState_one_call_per_setState Z
           [Value 0%Z; Value 0%Z; Updater (λ s, s + 1)%Z] Examples.component_two 2).
  solve_concrete.
Defined.

(** X13.  Plain container: subscribing a callback that is already
    subscribed registers it once, so a [setState] calls it once; the
    closure returned then removes it, and removes nobody else. *)
Theorem ComponentState_subscribe_twice :
  ∀ (T : Type) (m : ComponentState.ComponentStateManager T) (l : Listener)
    (action : SetStateAction T),
    NoDup (ComponentState.listeners m) →
    occurrences l
      (snd (ComponentState.setState action
              (fst (ComponentState.subscribe l
                      (fst (ComponentState.subscribe l m))))))
    = 1
    ∧ (l ∉ ComponentState.listeners
             (snd (ComponentState.subscribe l m)
                (fst (ComponentState.subscribe l
                        (fst (ComponentState.subscribe l m))))))
    ∧ (∀ l', l' ≠ l →
             l' ∈ ComponentState.listeners
                    (snd (ComponentState.subscribe l m)
                       (fst (ComponentState.subscribe l
                               (fst (ComponentState.subscribe l m)))))
             ↔ l' ∈ ComponentState.listeners m).
Proof.
  intros T m l action Hnd. split; [| split].
  - rewrite ComponentState_setState_trace. simpl.
    apply occurrences_elem.
    + by do 2 apply JSSet_NoDup_add.
    + rewrite !JSSet_elem_of_add. by left.
  - simpl. apply JSSet_not_elem_of_delete.
  - intros l' Hne. simpl.
    rewrite JSSet_elem_of_delete, !JSSet_elem_of_add. tauto.
Qed.

Lemma ComponentState_subscribe_twice_witness :
  occurrences 3
    (snd (ComponentState.setState (Value 9%Z)
            (fst (ComponentState.subscribe 3
                    (fst (ComponentState.subscribe 3 Examples.component_two))))))
  = 1
  ∧ (3 ∉ ComponentState.listeners
           (snd (ComponentState.subscribe 3 Examples.component_two)
              (fst (ComponentState.subscribe 3
                      (fst (ComponentState.subscribe 3 Examples.component_two))))))
  ∧ (∀ l', l' ≠ 3 →
           l' ∈ ComponentState.listeners
                  (snd (ComponentState.subscribe 3 Examples.component_two)
                     (fst (ComponentState.subscribe 3
                             (fst (ComponentState.subscribe 3
                                     Examples.component_two)))))
           ↔ l' ∈ ComponentState.listeners Examples.component_two).
Proof.
  apply (ComponentState_subscribe_twice Z Examples.component_two 3 (Value 9%Z)).
  solve_concrete.
Defined.

(** ** More on the finite-state holder *)

(** X14.  The constructor of the finite-state holder throws, with the
    message "StateMachine must be initialized with at least one machine
    state.", exactly when the collection is empty; it then calls no hook. *)
Theorem StateMachine_new_fails_iff_empty :
  ∀ (heap : StateMachine.ref → StateMachine.machineState)
    (sts : list StateMachine.ref),
    (sts = [] →
     StateMachine.new heap sts
     = Throw "StateMachine must be initialized with at least one machine state.")
    ∧ ((∃ message, StateMachine.new heap sts = Throw message) → sts = []).
Proof.
  intros heap sts. split.
  - by intros ->.
  - intros [message Hm]. by destruct sts.
Qed.

Section StateMachineMore.
Variable heap : StateMachine.ref → StateMachine.machineState.
Implicit Types (sm : StateMachine.StateMachine) (targets : list StateMachine.ref).

Lemma StateMachine_transitionTo_current r sm :
  StateMachine.currentState (fst (fst (StateMachine.transitionTo heap r sm)))
  = if decide (r ∈ StateMachine.states sm) then r else StateMachine.currentState sm.
Proof.
  unfold StateMachine.transitionTo.
  destruct (StateMachine.includes (StateMachine.states sm) r) eqn:Hin.
  - apply StateMachine_includes_spec in Hin. by rewrite decide_True.
  - apply StateMachine_includes_false in Hin. by rewrite decide_False.
Qed.

Lemma StateMachine_transitions_last targets sm :
  StateMachine.currentState (fst (StateMachine.transitions heap targets sm))
  = default (StateMachine.currentState sm)
      (last (filter (λ r, r ∈ StateMachine.states sm) targets)).
Proof.
  revert sm. induction targets as [| r targets IH]; intros sm; [done |].
  rewrite StateMachine_transitions_cons. cbn [fst]. rewrite IH.
  rewrite StateMachine_transitionTo_states, StateMachine_transitionTo_current.
  rewrite filter_cons. case_decide as Hr; [| done].
  rewrite last_cons. by destruct (last _).
Qed.

End StateMachineMore.

(** X15.  After any sequence of [transitionTo] calls whose errors are
    caught, the current state is the last target of the sequence that is a
    member of the collection, and the state before the sequence when no
    target is a member. *)
Theorem StateMachine_current_is_last_accepted :
  ∀ (heap : StateMachine.ref → StateMachine.machineState)
    (sm : StateMachine.StateMachine) (targets : list StateMachine.ref),
    StateMachine.getCurrentState (fst (StateMachine.transitions heap targets sm))
    = default (StateMachine.getCurrentState sm)
        (last (filter (λ r, r ∈ StateMachine.states sm) targets)).
Proof. intros heap sm targets. apply StateMachine_transitions_last. Qed.

(** X16.  A transition to the state that is already current is not
    skipped: its [onExit] then its [onEnter] run (when present), and the
    machine is as before. *)
Theorem StateMachine_transitionTo_current_state_runs_hooks :
  ∀ (heap : StateMachine.ref → StateMachine.machineState)
    (sm : StateMachine.StateMachine),
    StateMachine.currentState sm ∈ StateMachine.states sm →
    StateMachine.transitionTo heap (StateMachine.currentState sm) sm
    = (sm,
       match StateMachine.onExit (heap (StateMachine.currentState sm)) with
       | Some f => [(f, StateMachine.currentState sm)]
       | None => []
       end
       ++ match StateMachine.onEnter (heap (StateMachine.currentState sm)) with
          | Some g => [(g, StateMachine.currentState sm)]
          | None => []
          end,
       Normal).
Proof.
  intros heap sm Hin. apply StateMachine_includes_spec in Hin.
  unfold StateMachine.transitionTo. rewrite Hin. by destruct sm.
Qed.

Lemma StateMachine_transitionTo_current_state_runs_hooks_witness :
  StateMachine.transitionTo Examples.machine_heap 0 Examples.machine_AB
  = (Examples.machine_AB, [(11, 0); (10, 0)], Normal).
Proof.
  apply (StateMachine_transitionTo_current_state_runs_hooks
           Examples.machine_heap Examples.machine_AB).
  apply list_elem_of_In. simpl. auto.
Defined.

(** ** The registry *)

Section ATSManagerFacts.
Variable heap : StateMachine.ref → StateMachine.machineState.
Implicit Types (this : ATSManager.ATSManager) (w : GlobalState.Process)
  (c : registry_call) (key : string).

Lemma ATSManager_has_true key this :
  ATSManager.has key this = true ↔ is_Some (ATSManager.stateManagers this !! key).
Proof.
  unfold ATSManager.has. destruct (ATSManager.stateManagers this !! key); split;
    first [done | by eexists | by intros [? ?]].
Qed.

Lemma ATSManager_has_false key this :
  ATSManager.has key this = false ↔ ATSManager.stateManagers this !! key = None.
Proof.
  unfold ATSManager.has. by destruct (ATSManager.stateManagers this !! key).
Qed.

(** A registration either throws and changes nothing, or completes and
    writes only its own key, which was free. *)
Lemma registry_step_cases c this w :
  (∃ message,
      registry_step heap c this w = (this, w, [], Thrown message))
  ∨ (∃ value w' t,
        registry_step heap c this w
        = (ATSManager.set (registry_key c) value this, w', t, Normal)
        ∧ ATSManager.has (registry_key c) this = false).
Proof.
  destruct c as [states | v | v | v]; cbn [registry_step registry_key].
  - unfold ATSManager.addStateMachine, ATSManager.initializeStateMachine.
    destruct (ATSManager.has "stateMachine" this); [left; by eexists |].
    destruct (length states =? 0)%nat; [left; by eexists |].
    destruct (StateMachine.new heap states) as [[sm t] | message];
      [right; by eexists _, _, _ | left; by eexists].
  - unfold ATSManager.addProxyState, ATSManager.initializeProxyState.
    destruct (ATSManager.has "proxy" this); [left; by eexists |].
    destruct (_ || _); [left; by eexists |].
    destruct (ProxyState.new v) as [m | message];
      [right; by eexists _, _, _ | left; by eexists].
  - unfold ATSManager.addGlobalState, ATSManager.initializeGlobalState.
    destruct (ATSManager.has "global" this); [left; by eexists |].
    destruct (GlobalState.getInstance v w) as [r w']. right. by eexists _, _, _.
  - unfold ATSManager.addComponentState, ATSManager.initializeComponentState.
    destruct (ATSManager.has "component" this); [left; by eexists |].
    right. by eexists _, _, _.
Qed.

Lemma registry_step_keeps c this w key (value : ATSManager.manager) :
  ATSManager.stateManagers this !! key = Some value →
  ATSManager.stateManagers (fst (fst (fst (registry_step heap c this w)))) !! key
  = Some value.
Proof.
  intros Hk.
  destruct (registry_step_cases c this w)
    as [[message ->] | (v & w' & t & -> & Hfree)]; [done |].
  cbn [fst ATSManager.set ATSManager.stateManagers].
  apply ATSManager_has_false in Hfree.
  rewrite lookup_insert_ne; [done | congruence].
Qed.

End ATSManagerFacts.

(** X17.  Registry: a registration that throws changes neither the registry
    nor the process and runs no hook; one that completes writes its own key
    only, and that key was free before. *)
Theorem ATSManager_registration_all_or_nothing :
  ∀ (heap : StateMachine.ref → StateMachine.machineState) (c : registry_call)
    (this this' : ATSManager.ATSManager) (w w' : GlobalState.Process)
    (t : StateMachine.trace) (k : completion),
    registry_step heap c this w = (this', w', t, k) →
    (∀ message, k = Thrown message → this' = this ∧ w' = w ∧ t = [])
    ∧ (k = Normal →
       ATSManager.has (registry_key c) this = false
       ∧ ATSManager.has (registry_key c) this' = true
       ∧ ∀ key, key ≠ registry_key c →
                ATSManager.stateManagers this' !! key
                = ATSManager.stateManagers this !! key).
Proof.
  intros heap c this this' w w' t k Hstep.
  destruct (registry_step_cases heap c this w)
    as [[message Hthrow] | (v & w1 & t1 & Hok & Hfree)].
  - rewrite Hthrow in Hstep. simplify_eq.
    split; [done | intros [=]].
  - rewrite Hok in Hstep. simplify_eq.
    split; [intros message [=] |]. intros _. split; [done |]. split.
    + apply ATSManager_has_true. cbn [ATSManager.set ATSManager.stateManagers].
      rewrite lookup_insert_eq. by eexists.
    + intros key Hkey. cbn [ATSManager.set ATSManager.stateManagers].
      by rewrite lookup_insert_ne.
Qed.

Lemma ATSManager_registration_all_or_nothing_witness :
  (∀ message,
      Normal = Thrown message →
      ATSManager.set "component"
        (ATSManager.OfComponentState (ComponentState.new (JS.Num 0))) ATSManager.new
      = ATSManager.new
      ∧ GlobalState.start = GlobalState.start
      ∧ @nil StateMachine.event = [])
  ∧ (Normal = Normal →
     ATSManager.has (registry_key (AddComponentState (JS.Num 0))) ATSManager.new
     = false
     ∧ ATSManager.has (registry_key (AddComponentState (JS.Num 0)))
         (ATSManager.set "component"
            (ATSManager.OfComponentState (ComponentState.new (JS.Num 0)))
            ATSManager.new)
       = true
     ∧ ∀ key, key ≠ registry_key (AddComponentState (JS.Num 0)) →
              ATSManager.stateManagers
                (ATSManager.set "component"
                   (ATSManager.OfComponentState (ComponentState.new (JS.Num 0)))
                   ATSManager.new) !! key
              = ATSManager.stateManagers ATSManager.new !! key).
Proof.
  apply (ATSManager_registration_all_or_nothing Examples.machine_heap
           (AddComponentState (JS.Num 0)) ATSManager.new
           (ATSManager.set "component"
              (ATSManager.OfComponentState (ComponentState.new (JS.Num 0)))
              ATSManager.new)
           GlobalState.start GlobalState.start [] Normal).
  reflexivity.
Defined.

(** X18.  Registry: a manager, once registered, is never replaced or
    removed: after any further registrations, of any kind and with any
    arguments, its key still holds it, and [getStateManager] of that key
    returns it. *)
Theorem ATSManager_registered_manager_stays :
  ∀ (heap : StateMachine.ref → StateMachine.machineState)
    (cs : list registry_call) (this : ATSManager.ATSManager)
    (w : GlobalState.Process) (key : string) (value : ATSManager.manager),
    ATSManager.stateManagers this !! key = Some value →
    ATSManager.stateManagers (fst (registry_run heap cs this w)) !! key = Some value
    ∧ ATSManager.getStateManager key (fst (registry_run heap cs this w))
      = Ok (Some value).
Proof.
  intros heap cs.
  assert (∀ this w key value,
             ATSManager.stateManagers this !! key = Some value →
             ATSManager.stateManagers (fst (registry_run heap cs this w)) !! key
             = Some value) as Hkeep.
  { induction cs as [| c cs IH]; intros this w key value Hk; [done |].
    cbn [registry_run]. apply IH. by apply registry_step_keeps. }
  intros this w key value Hk. pose proof (Hkeep this w key value Hk) as Hk'.
  split; [done |]. unfold ATSManager.getStateManager, ATSManager.has.
  by rewrite Hk'.
Qed.

Lemma ATSManager_registered_manager_stays_witness :
  ATSManager.stateManagers
    (fst (registry_run Examples.machine_heap
            [AddComponentState (JS.Num 1); AddProxyState (JS.Obj []);
             AddStateMachine [0; 1]; AddComponentState JS.Null]
            (ATSManager.set "component"
               (ATSManager.OfComponentState (ComponentState.new (JS.Num 0)))
               ATSManager.new)
            GlobalState.start)) !! "component"
  = Some (ATSManager.OfComponentState (ComponentState.new (JS.Num 0)))
  ∧ ATSManager.getStateManager "component"
      (fst (registry_run Examples.machine_heap
              [AddComponentState (JS.Num 1); AddProxyState (JS.Obj []);
               AddStateMachine [0; 1]; AddComponentState JS.Null]
              (ATSManager.set "component"
                 (ATSManager.OfComponentState (ComponentState.new (JS.Num 0)))
                 ATSManager.new)
              GlobalState.start))
    = Ok (Some (ATSManager.OfComponentState (ComponentState.new (JS.Num 0)))).
Proof.
  apply (ATSManager_registered_manager_stays Examples.machine_heap
           [AddComponentState (JS.Num 1); AddProxyState (JS.Obj []);
            AddStateMachine [0; 1]; AddComponentState JS.Null]
           (ATSManager.set "component"
              (ATSManager.OfComponentState (ComponentState.new (JS.Num 0)))
              ATSManager.new)
           GlobalState.start "component"
           (ATSManager.OfComponentState (ComponentState.new (JS.Num 0)))).
  reflexivity.
Defined.

(** X19.  Registry: [getStateManager] throws "State manager of type
    '<key>' does not exist." exactly for a key that holds nothing, as every
    key of a new registry does; for a registered key it returns the manager
    and never [undefined]. *)
Theorem ATSManager_getStateManager_missing_key :
  ∀ (this : ATSManager.ATSManager) (key : string),
    (ATSManager.stateManagers this !! key = None →
     ATSManager.getStateManager key this
     = Throw ("State manager of type '" +:+ key +:+ "' does not exist."))
    ∧ (∀ r, ATSManager.getStateManager key this = Ok r →
            ∃ value, r = Some value
                     ∧ ATSManager.stateManagers this !! key = Some value)
    ∧ ATSManager.getStateManager key ATSManager.new
      = Throw ("State manager of type '" +:+ key +:+ "' does not exist.").
Proof.
  intros this key. unfold ATSManager.getStateManager, ATSManager.has.
  split; [by intros -> |]. split; [| done].
  intros r. destruct (ATSManager.stateManagers this !! key) as [v |] eqn:Hk;
    simpl; [| done].
  intros [= <-]. by exists v.
Qed.

(** X20.  Registry: a duplicate registration is refused before its
    argument is looked at: with the key taken, each [add] method throws its
    "has already been initialized" error whatever the argument (an empty
    state list and a non-object included), without touching the registry,
    the process or any hook. *)
Theorem ATSManager_duplicate_registration_refused :
  ∀ (heap : StateMachine.ref → StateMachine.machineState)
    (this : ATSManager.ATSManager) (c : registry_call) (w : GlobalState.Process),
    ATSManager.has (registry_key c) this = true →
    registry_step heap c this w
    = (this, w, [],
       Thrown (match c with
               | AddStateMachine _ => "StateMachine"
               | AddProxyState _ => "ProxyStateManager"
               | AddGlobalState _ => "GlobalStateManager"
               | AddComponentState _ => "ComponentStateManager"
               end +:+ " has already been initialized.")).
Proof.
  intros heap this c w Hhas.
  destruct c as [states | v | v | v]; cbn [registry_step registry_key] in *;
    unfold ATSManager.addStateMachine, ATSManager.initializeStateMachine,
      ATSManager.addProxyState, ATSManager.initializeProxyState,
      ATSManager.addGlobalState, ATSManager.initializeGlobalState,
      ATSManager.addComponentState, ATSManager.initializeComponentState;
    by rewrite Hhas.
Qed.

Lemma ATSManager_duplicate_registration_refused_witness :
  registry_step Examples.machine_heap (AddStateMachine [])
    (ATSManager.set "stateMachine" (ATSManager.OfStateMachine Examples.machine_AB)
       ATSManager.new)
    GlobalState.start
  = (ATSManager.set "stateMachine" (ATSManager.OfStateMachine Examples.machine_AB)
       ATSManager.new,
     GlobalState.start, [],
     Thrown ("StateMachine" +:+ " has already been initialized.")).
Proof.
  apply (ATSManager_duplicate_registration_refused Examples.machine_heap
           (ATSManager.set "stateMachine"
              (ATSManager.OfStateMachine Examples.machine_AB) ATSManager.new)
           (AddStateMachine []) GlobalState.start).
  reflexivity.
Defined.

(** X21.  Registry: with its key free, each [add] method completes for a
    valid argument, and [getStateManager] then returns the manager the
    constructor built: the machine over the given states with the first one
    current (its [onEnter] having run), the proxy manager of the given
    object, the instance [getInstance] returns, the plain container of the
    given value. *)
Theorem ATSManager_add_then_get :
  ∀ (heap : StateMachine.ref → StateMachine.machineState)
    (this : ATSManager.ATSManager) (w : GlobalState.Process),
    (∀ s0 rest,
        ATSManager.has "stateMachine" this = false →
        snd (ATSManager.addStateMachine heap (s0 :: rest) this) = Normal
        ∧ snd (fst (ATSManager.addStateMachine heap (s0 :: rest) this))
          = match StateMachine.onEnter (heap s0) with
            | Some f => [(f, s0)]
            | None => []
            end
        ∧ ATSManager.getStateManager "stateMachine"
            (fst (fst (ATSManager.addStateMachine heap (s0 :: rest) this)))
          = Ok (Some (ATSManager.OfStateMachine
                        {| StateMachine.states := s0 :: rest;
                           StateMachine.currentState := s0 |})))
    ∧ (∀ o,
          ATSManager.has "proxy" this = false →
          snd (ATSManager.addProxyState (JS.Obj o) this) = Normal
          ∧ ATSManager.getStateManager "proxy"
              (fst (ATSManager.addProxyState (JS.Obj o) this))
            = Ok (Some (ATSManager.OfProxyState
                          {| ProxyState.state := o;
                             ProxyState.listeners := [];
                             ProxyState.isBatchingUpdates := false;
                             ProxyState.pendingNotifications := [];
                             ProxyState.hasStateChanged := false |})))
    ∧ (∀ v,
          ATSManager.has "global" this = false →
          snd (ATSManager.addGlobalState v this w) = Normal
          ∧ snd (fst (ATSManager.addGlobalState v this w))
            = snd (GlobalState.getInstance v w)
          ∧ ATSManager.getStateManager "global"
              (fst (fst (ATSManager.addGlobalState v this w)))
            = Ok (Some (ATSManager.OfGlobalState
                          (fst (GlobalState.getInstance v w)))))
    ∧ (∀ v,
          ATSManager.has "component" this = false →
          snd (ATSManager.addComponentState v this) = Normal
          ∧ ATSManager.getStateManager "component"
              (fst (ATSManager.addComponentState v this))
            = Ok (Some (ATSManager.OfComponentState (ComponentState.new v)))).
Proof.
  intros heap this w.
  assert (∀ key value,
             ATSManager.getStateManager key (ATSManager.set key value this)
             = Ok (Some value)) as Hget.
  { intros key value. unfold ATSManager.getStateManager, ATSManager.has.
    cbn [ATSManager.set ATSManager.stateManagers]. by rewrite lookup_insert_eq. }
  split; [| split; [| split]].
  - intros s0 rest Hfree.
    unfold ATSManager.addStateMachine, ATSManager.initializeStateMachine.
    rewrite Hfree. cbn [length Nat.eqb].
    change (StateMachine.new heap (s0 :: rest))
      with (Ok ({| StateMachine.states := s0 :: rest;
                   StateMachine.currentState := s0 |},
                match StateMachine.onEnter (heap s0) with
                | Some f => [(f, s0)]
                | None => []
                end)).
    cbn [fst snd]. by rewrite Hget.
  - intros o Hfree.
    unfold ATSManager.addProxyState, ATSManager.initializeProxyState.
    rewrite Hfree. cbn. by rewrite Hget.
  - intros v Hfree.
    unfold ATSManager.addGlobalState, ATSManager.initializeGlobalState.
    rewrite Hfree. destruct (GlobalState.getInstance v w) as [r w'].
    cbn [fst snd]. by rewrite Hget.
  - intros v Hfree.
    unfold ATSManager.addComponentState, ATSManager.initializeComponentState.
    rewrite Hfree. cbn [fst snd]. by rewrite Hget.
Qed.

(** X22.  Registry: with the key free, [addStateMachine] of an empty list
    throws the registry's own "StateMachine must be initialized with at
    least one state." before any machine is constructed, and
    [addProxyState] of a value that is not an object throws
    "ProxyStateManager can only manage state of type 'object'."; neither
    registers anything. *)
Theorem ATSManager_invalid_argument_refused :
  ∀ (heap : StateMachine.ref → StateMachine.machineState)
    (this : ATSManager.ATSManager),
    (ATSManager.has "stateMachine" this = false →
     ATSManager.addStateMachine heap [] this
     = (this, [], Thrown "StateMachine must be initialized with at least one state."))
    ∧ (∀ v, ATSManager.has "proxy" this = false →
            (∀ o, v ≠ JS.Obj o) →
            ATSManager.addProxyState v this
            = (this, Thrown "ProxyStateManager can only manage state of type 'object'.")).
Proof.
  intros heap this. split.
  - intros Hfree.
    unfold ATSManager.addStateMachine, ATSManager.initializeStateMachine.
    by rewrite Hfree.
  - intros v Hfree Hv.
    unfold ATSManager.addProxyState, ATSManager.initializeProxyState.
    rewrite Hfree. destruct v; try reflexivity. by destruct (Hv props).
Qed.

(** X23.  Registries share the singleton: when a second registry adds a
    global state after a first one did, it registers the same instance, the
    process is left as it was, and the initial state it passes is ignored:
    the instance still holds what it held. *)
Theorem ATSManager_global_state_is_shared :
  ∀ (this1 this2 : ATSManager.ATSManager) (w : GlobalState.Process)
    (a b : JS.value),
    ATSManager.has "global" this1 = false →
    ATSManager.has "global" this2 = false →
    ATSManager.stateManagers
      (fst (fst (ATSManager.addGlobalState b this2
                   (snd (fst (ATSManager.addGlobalState a this1 w))))))
      !! "global"
    = ATSManager.stateManagers (fst (fst (ATSManager.addGlobalState a this1 w)))
        !! "global"
    ∧ snd (fst (ATSManager.addGlobalState b this2
                  (snd (fst (ATSManager.addGlobalState a this1 w)))))
      = snd (fst (ATSManager.addGlobalState a this1 w)).
Proof.
  intros this1 this2 w a b H1 H2.
  unfold ATSManager.addGlobalState, ATSManager.initializeGlobalState.
  rewrite H1, H2.
  pose proof (proj1 (GlobalState_getInstance_lazy_singleton w a b)) as Hsame.
  destruct (GlobalState.getInstance a w) as [r w1]. cbn [fst snd] in *.
  rewrite Hsame. cbn [fst snd ATSManager.set ATSManager.stateManagers].
  by rewrite !lookup_insert_eq.
Qed.

Lemma ATSManager_global_state_is_shared_witness :
  ATSManager.stateManagers
    (fst (fst (ATSManager.addGlobalState (JS.Num 5) ATSManager.new
                 (snd (fst (ATSManager.addGlobalState (JS.Str "a") ATSManager.new
                              GlobalState.start))))))
    !! "global"
  = ATSManager.stateManagers
      (fst (fst (ATSManager.addGlobalState (JS.Str "a") ATSManager.new
                   GlobalState.start)))
      !! "global"
  ∧ snd (fst (ATSManager.addGlobalState (JS.Num 5) ATSManager.new
                (snd (fst (ATSManager.addGlobalState (JS.Str "a") ATSManager.new
                             GlobalState.start)))))
    = snd (fst (ATSManager.addGlobalState (JS.Str "a") ATSManager.new
                  GlobalState.start)).
Proof.
  apply (ATSManager_global_state_is_shared ATSManager.new ATSManager.new
           GlobalState.start (JS.Str "a") (JS.Num 5)); reflexivity.
Defined.

(** ** The [useState] hook *)

Section UseStateFacts.
Context {T : Type}.
Implicit Types (e : UseState.closure T) (cs : list (UseState.call T)) (l : Listener).

Lemma UseState_run_cons (c : UseState.call T) cs e :
  UseState.run (c :: cs) e
  = (fst (UseState.run cs (fst (UseState.step c e))),
     snd (UseState.step c e) ++ snd (UseState.run cs (fst (UseState.step c e)))).
Proof. reflexivity. Qed.

Lemma UseState_step_facts (c : UseState.call T) e l :
  NoDup (UseState.listeners e) →
  NoDup (UseState.listeners (fst (UseState.step c e)))
  ∧ occurrences l (snd (UseState.step c e))
    = match c with
      | UseState.SetState _ => if bool_decide (l ∈ UseState.listeners e) then 1 else 0
      | _ => 0
      end
  ∧ bool_decide (l ∈ UseState.listeners (fst (UseState.step c e)))
    = match c with
      | UseState.SetState _ => bool_decide (l ∈ UseState.listeners e)
      | UseState.Subscribe x =>
          if decide (x = l) then true else bool_decide (l ∈ UseState.listeners e)
      | UseState.Unsubscribe x =>
          if decide (x = l) then false else bool_decide (l ∈ UseState.listeners e)
      end.
Proof.
  intros Hnd. destruct c as [a | x | x]; simpl.
  - split; [done |]. split; [| done]. rewrite map_id.
    case_bool_decide; [by apply occurrences_elem | by apply occurrences_not_elem].
  - split; [by apply JSSet_NoDup_add |]. split; [done |].
    case_decide as Hx.
    + subst. apply bool_decide_eq_true. apply JSSet_elem_of_add. by left.
    + apply bool_decide_ext. rewrite JSSet_elem_of_add.
      split; [intros [Hl | Hl]; [by subst | done] | by right].
  - split; [by apply JSSet_NoDup_delete |]. split; [done |].
    case_decide as Hx.
    + subst. apply bool_decide_eq_false. apply JSSet_not_elem_of_delete.
    + apply bool_decide_ext. rewrite JSSet_elem_of_delete.
      split; [by intros [_ Hl] | intros Hl; split; [congruence | done]].
Qed.

End UseStateFacts.

(** X24.  [useState]: over any sequence of [setState], [subscribe] and
    unsubscribe calls, a callback is called exactly once for each
    [setState] made while it is subscribed, and [getState] returns the fold
    of the [setState] actions over the value held at the start; the triple
    [useState(initialState)] returns starts from [initialState] with nobody
    subscribed. *)
Theorem UseState_one_call_per_set_while_subscribed :
  ∀ (T : Type) (cs : list (UseState.call T)) (e : UseState.closure T) (l : Listener),
    NoDup (UseState.listeners e) →
    occurrences l (snd (UseState.run cs e))
    = UseState.sets_while_subscribed l cs (bool_decide (l ∈ UseState.listeners e))
    ∧ UseState.getState (fst (UseState.run cs e))
      = UseState.fold_sets cs (UseState.getState e).
Proof.
  intros T cs. induction cs as [| c cs IH]; intros e l Hnd; [done |].
  destruct (UseState_step_facts c e l Hnd) as (Hnd1 & Hocc & Hsub).
  destruct (IH _ l Hnd1) as [IHo IHs].
  rewrite UseState_run_cons. cbn [fst snd].
  rewrite occurrences_app, Hocc, IHo, Hsub, IHs. clear.
  destruct c as [[v | f] | x | x]; simpl; split; try done;
    by destruct (bool_decide _).
Qed.

(** The subscription test of the suite: two [setState] calls while
    subscribed, one after unsubscribing, on [useState(0)]. *)
Lemma UseState_one_call_per_set_while_subscribed_witness :
  occurrences 1
    (snd (UseState.run
            [UseState.Subscribe 1; UseState.SetState (Value 10%Z);
             UseState.SetState (Value 20%Z); UseState.Unsubscribe 1;
             UseState.SetState (Value 30%Z)]
            (fst (UseState.useState 0%Z))))
  = UseState.sets_while_subscribed 1
      [UseState.Subscribe 1; UseState.SetState (Value 10%Z);
       UseState.SetState (Value 20%Z); UseState.Unsubscribe 1;
       UseState.SetState (Value 30%Z)]
      (bool_decide (1 ∈ UseState.listeners (fst (UseState.useState 0%Z))))
  ∧ UseState.getState
      (fst (UseState.run
              [UseState.Subscribe 1; UseState.SetState (Value 10%Z);
               UseState.SetState (Value 20%Z); UseState.Unsubscribe 1;
               UseState.SetState (Value 30%Z)]
              (fst (UseState.useState 0%Z))))
    = UseState.fold_sets
        [UseState.Subscribe 1; UseState.SetState (Value 10%Z);
         UseState.SetState (Value 20%Z); UseState.Unsubscribe 1;
         UseState.SetState (Value 30%Z)]
        (UseState.getState (fst (UseState.useState 0%Z))).
Proof.
  apply (UseState_one_call_per_set_while_subscribed Z
           [UseState.Subscribe 1; UseState.SetState (Value 10%Z);
            UseState.SetState (Value 20%Z); UseState.Unsubscribe 1;
            UseState.SetState (Value 30%Z)]
           (fst (UseState.useState 0%Z)) 1).
  apply NoDup_nil_2.
Defined.

Example UseState_subscription_test_run :
  UseState.run
    [UseState.Subscribe 1; UseState.SetState (Value 10%Z);
     UseState.SetState (Value 20%Z); UseState.Unsubscribe 1;
     UseState.SetState (Value 30%Z)]
    (fst (UseState.useState 0%Z))
  = ({| UseState.currentState := 30%Z; UseState.listeners := [] |}, [1; 1])
  ∧ UseState.sets_while_subscribed 1
      [UseState.Subscribe 1; UseState.SetState (Value 10%Z);
       UseState.SetState (Value 20%Z); UseState.Unsubscribe 1;
       UseState.SetState (Value 30%Z)] false = 2.
Proof. split; reflexivity. Qed.
